(** * Vinheria server: access control and inventory ledger

    A shallow embedding of [server.js] (Express handlers over a SQLite
    database opened with better-sqlite3, sessions kept by express-session,
    passwords hashed with bcryptjs), and the properties of its login,
    registration and inventory routes.

    Layout:
    - [JsString]: the string methods the handlers call ([trim],
      [toLowerCase]);
    - [Double], [JsNumber]: IEEE binary64 values (JavaScript numbers,
      SQLite REAL) and the conversion [Number] applies to a string;
    - [Sqlite]: the values of the [quantity] column, the arithmetic of the
      two UPDATE statements, column affinity and the two tables;
    - [Server]: the handlers, as state-passing functions over the database
      and the session of the requesting browser;
    - [Example]: a configuration the handlers run on;
    - [DoubleFacts], [SqliteFacts], [ServerFacts]: lemmas on rounding, on
      the quantity expressions and on the statements;
    - [IdText]: how the id of a URL, written in digits, is read;
    - [Ledger], [Access], [Keys]: the properties of the inventory routes,
      of registration and login, and of the ids;
    - [Observe] (with the definitions), then [Routes], [StringFacts],
      [Gate], [Accounts], [Users], [Stock], [WholeNumbers], [Entry]: the
      remaining routes, and what holds over whole runs of the server. *)

From Stdlib Require Import ZArith List Bool Ascii String Lia.
From Stdlib Require Import Floats.SpecFloat.
From Stdlib Require Import Sorting.Sorted.
Import ListNotations.

Local Open Scope string_scope.
Local Open Scope Z_scope.

(* ===================================================================== *)
(** ** JavaScript strings *)
(* ===================================================================== *)

(** Strings are sequences of code units below 256 (the Latin-1 part of
    UTF-16): one [ascii] is one code unit.  Code units above 255 are not
    represented. *)
Module JsString.

Definition code (c : ascii) : N := N_of_ascii c.

(** WhiteSpace and LineTerminator code units below 256: TAB, LF, VT, FF,
    CR, SP and NBSP.  [trim] strips these, and so does [Number]. *)
Definition is_white_space (c : ascii) : bool :=
  let n := code c in
  ((9 <=? n) && (n <=? 13) || (n =? 32) || (n =? 160))%N.

(** Stripping the code units that satisfy [ws] from both ends. *)
Fixpoint strip_start (ws : ascii -> bool) (s : string) : string :=
  match s with
  | String c r => if ws c then strip_start ws r else s
  | EmptyString => EmptyString
  end.

Fixpoint strip_end (ws : ascii -> bool) (s : string) : string :=
  match s with
  | String c r =>
      match strip_end ws r with
      | EmptyString => if ws c then EmptyString else String c EmptyString
      | r' => String c r'
      end
  | EmptyString => EmptyString
  end.

Definition strip (ws : ascii -> bool) (s : string) : string :=
  strip_end ws (strip_start ws s).

(** [s.trim()] *)
Definition trim (s : string) : string := strip is_white_space s.

(** Lower-casing of one code unit below 256: A-Z, and the Latin-1 capitals
    U+00C0..U+00DE except the multiplication sign U+00D7. *)
Definition lower_unit (c : ascii) : ascii :=
  let n := code c in
  if ((65 <=? n) && (n <=? 90)
      || (192 <=? n) && (n <=? 222) && negb (n =? 215))%N
  then ascii_of_N (n + 32) else c.

(** [s.toLowerCase()] *)
Fixpoint toLowerCase (s : string) : string :=
  match s with
  | String c r => String (lower_unit c) (toLowerCase r)
  | EmptyString => EmptyString
  end.

(** Truthiness of a string: only the empty string is falsy. *)
Definition truthy (s : string) : bool :=
  match s with EmptyString => false | _ => true end.

(** A code unit given by its number, for the accented letters of the
    messages. *)
Definition chr (n : N) : string := String (ascii_of_N n) EmptyString.

End JsString.

(* ===================================================================== *)
(** ** Binary64 numbers *)
(* ===================================================================== *)

Module Double.

Definition prec : Z := 53.
Definition emax : Z := 1024.

(** A JavaScript number, or a SQLite REAL. *)
Definition double : Type := spec_float.

Definition add : double -> double -> double := SFadd prec emax.
Definition sub : double -> double -> double := SFsub prec emax.
Definition div : double -> double -> double := SFdiv prec emax.

(** The double nearest to an integer (ties to even). *)
Definition of_Z (z : Z) : double := binary_normalize prec emax z 0 false.

Definition is_nan (f : double) : bool :=
  match f with S754_nan => true | _ => false end.

(** The double nearest to [(-1)^neg * m * 10^e10]. *)
Definition of_decimal (neg : bool) (m : N) (e10 : Z) : double :=
  match m with
  | N0 => S754_zero neg
  | Npos p =>
      if 0 <=? e10
      then binary_round prec emax neg (p * Z.to_pos (10 ^ e10)) 0
      else div (S754_finite neg p 0)
               (S754_finite false (Z.to_pos (10 ^ (- e10))) 0)
  end.

(** The integer a double denotes, when it denotes one. *)
Definition to_Z (f : double) : option Z :=
  match f with
  | S754_zero _ => Some 0
  | S754_finite s m e =>
      let v := if s then Z.neg m else Z.pos m in
      if 0 <=? e then Some (v * 2 ^ e)
      else if v mod 2 ^ (- e) =? 0 then Some (v / 2 ^ (- e))
      else None
  | S754_infinity _ | S754_nan => None
  end.

(** Exact comparison of a double with an integer; [None] on NaN. *)
Definition compare_Z (f : double) (z : Z) : option comparison :=
  match f with
  | S754_nan => None
  | S754_infinity s => Some (if s then Lt else Gt)
  | S754_zero _ => Some (0 ?= z)
  | S754_finite s m e =>
      let v := if s then Z.neg m else Z.pos m in
      if 0 <=? e then Some (v * 2 ^ e ?= z)
      else Some (v ?= z * 2 ^ (- e))
  end.

(** [f] is a number (not NaN) whose sign bit is [s]. *)
Definition has_sign (s : bool) (f : double) : Prop :=
  match f with
  | S754_zero s' | S754_infinity s' | S754_finite s' _ _ => s' = s
  | S754_nan => False
  end.

(** A number that is not below zero: any zero, or a positive number. *)
Definition not_below_zero (f : double) : Prop :=
  match f with
  | S754_zero _ => True
  | S754_infinity s | S754_finite s _ _ => s = false
  | S754_nan => False
  end.

End Double.

(* ===================================================================== *)
(** ** [Number] applied to a string *)
(* ===================================================================== *)

(** StringToNumber of ECMAScript: the argument is trimmed, the empty string
    is 0, a StringNumericLiteral is rounded to the nearest double and
    anything else is NaN. *)
Module JsNumber.
Import JsString Double.

Definition digit_of (radix : N) (c : ascii) : option N :=
  let n := code c in
  let v := (if (48 <=? n) && (n <=? 57) then Some (n - 48)
            else if (97 <=? n) && (n <=? 102) then Some (n - 87)
            else if (65 <=? n) && (n <=? 70) then Some (n - 55)
            else None)%N in
  match v with
  | Some d => if (d <? radix)%N then Some d else None
  | None => None
  end.

(** The longest prefix of digits in [radix]: its digits as a number, how
    many they are, and the rest of the string. *)
Fixpoint span_digits (radix : N) (s : string) (acc : N) (count : Z)
  : N * Z * string :=
  match s with
  | String c r =>
      match digit_of radix c with
      | Some d => span_digits radix r (acc * radix + d)%N (count + 1)
      | None => (acc, count, s)
      end
  | EmptyString => (acc, count, s)
  end.

(** NonDecimalIntegerLiteral: [0x], [0o] or [0b] and one digit at least. *)
Definition non_decimal (s : string) : option N :=
  match s with
  | String "0" (String p r) =>
      let radix := (if (p =? "x")%char || (p =? "X")%char then 16
                    else if (p =? "o")%char || (p =? "O")%char then 8
                    else if (p =? "b")%char || (p =? "B")%char then 2
                    else 0)%N in
      if (radix =? 0)%N then None
      else match span_digits radix r 0%N 0 with
           | (v, count, EmptyString) => if 0 <? count then Some v else None
           | _ => None
           end
  | _ => None
  end.

Definition strip_sign (s : string) : bool * string :=
  match s with
  | String "-" r => (true, r)
  | String "+" r => (false, r)
  | _ => (false, s)
  end.

(** ExponentPart, up to the end of the string; no exponent counts as 0. *)
Definition exponent_part (s : string) : option Z :=
  match s with
  | EmptyString => Some 0
  | String c r =>
      if (c =? "e")%char || (c =? "E")%char then
        let (neg, r1) := strip_sign r in
        match span_digits 10 r1 0%N 0 with
        | (v, count, EmptyString) =>
            if 0 <? count
            then Some (if neg then - Z.of_N v else Z.of_N v)
            else None
        | _ => None
        end
      else None
  end.

(** StrUnsignedDecimalLiteral other than [Infinity]: digits, an optional
    fraction and an optional exponent, with one digit at least before the
    exponent.  The result is the mantissa and the power of ten. *)
Definition unsigned_decimal (s : string) : option (N * Z) :=
  let '(int_part, int_count, r1) := span_digits 10 s 0%N 0 in
  let '(mantissa, frac_count, r2) :=
    match r1 with
    | String "." r => span_digits 10 r int_part 0
    | _ => (int_part, 0, r1)
    end in
  if (int_count + frac_count =? 0) then None
  else match exponent_part r2 with
       | Some e => Some (mantissa, e - frac_count)
       | None => None
       end.

(** [Number(s)] for a string [s]. *)
Definition Number (s : string) : double :=
  let t := trim s in
  match t with
  | EmptyString => S754_zero false
  | _ =>
      match non_decimal t with
      | Some v => of_decimal false v 0
      | None =>
          let (neg, r) := strip_sign t in
          if (r =? "Infinity")%string then S754_infinity neg
          else match unsigned_decimal r with
               | Some (m, e10) => of_decimal neg m e10
               | None => S754_nan
               end
      end
  end.

End JsNumber.

(* ===================================================================== *)
(** ** The SQLite database *)
(* ===================================================================== *)

Module Sqlite.
Import Double.

Definition min_int64 : Z := - 2 ^ 63.
Definition max_int64 : Z := 2 ^ 63 - 1.

Definition in_int64 (z : Z) : bool := (min_int64 <=? z) && (z <=? max_int64).

(** A numeric value: storage class INTEGER (64 bits, signed) or REAL.
    SQLite has no NaN: where one would arise the value is NULL, written
    [None] below. *)
Inductive sqlnum : Type :=
| SqlInt (z : Z)
| SqlReal (f : double).

Definition real_of (v : sqlnum) : double :=
  match v with
  | SqlInt z => of_Z z
  | SqlReal f => f
  end.

Definition real_result (f : double) : option sqlnum :=
  if is_nan f then None else Some (SqlReal f).

(** [a + b] and [a - b]: integer arithmetic while the result fits in 64
    bits, floating point otherwise. *)
Definition sql_add (a b : sqlnum) : option sqlnum :=
  match a, b with
  | SqlInt x, SqlInt y =>
      if in_int64 (x + y) then Some (SqlInt (x + y))
      else real_result (add (of_Z x) (of_Z y))
  | _, _ => real_result (add (real_of a) (real_of b))
  end.

Definition sql_sub (a b : sqlnum) : option sqlnum :=
  match a, b with
  | SqlInt x, SqlInt y =>
      if in_int64 (x - y) then Some (SqlInt (x - y))
      else real_result (sub (of_Z x) (of_Z y))
  | _, _ => real_result (sub (real_of a) (real_of b))
  end.

(** [a] sorts strictly before [b]; INTEGER and REAL compare by value. *)
Definition sql_lt (a b : sqlnum) : bool :=
  match a, b with
  | SqlInt x, SqlInt y => x <? y
  | SqlInt x, SqlReal g =>
      match compare_Z g x with Some Gt => true | _ => false end
  | SqlReal f, SqlInt y =>
      match compare_Z f y with Some Lt => true | _ => false end
  | SqlReal f, SqlReal g => SFltb f g
  end.

(** The scalar [MAX(a, b)]: NULL when an argument is NULL, otherwise the
    first argument unless the second is strictly larger. *)
Definition sql_max (a b : option sqlnum) : option sqlnum :=
  match a, b with
  | Some x, Some y => if sql_lt x y then Some y else Some x
  | _, _ => None
  end.

(** INTEGER column affinity: a REAL that denotes an integer strictly
    between the two extreme 64-bit integers is stored as that INTEGER. *)
Definition integer_affinity (v : sqlnum) : sqlnum :=
  match v with
  | SqlInt _ => v
  | SqlReal f =>
      match to_Z f with
      | Some z => if (min_int64 <? z) && (z <? max_int64) then SqlInt z
                  else v
      | None => v
      end
  end.

(** A JavaScript number bound to a statement parameter: a double, and
    NULL for NaN. *)
Definition bind_number (f : double) : option sqlnum := real_result f.

(** Whitespace skipped around a number given as text. *)
Definition is_space (c : ascii) : bool :=
  let n := JsString.code c in
  ((9 <=? n) && (n <=? 13) || (n =? 32))%N.

(** A TEXT parameter compared with the INTEGER PRIMARY KEY: the text is
    read as a number (spaces around it skipped, sign, digits, optional
    fraction and exponent) and matches the key it equals; a text that is
    not a number, or not an integer, matches no row.  A text that writes
    a 64-bit integer in digits is read exactly, here and by SQLite.  For
    a fraction or an exponent SQLite converts with a routine of its own
    that keeps a bounded number of significant digits, where the reading
    below rounds the whole decimal correctly: on long decimals next to an
    integer the two can differ.  What is stated about the row a text
    addresses is therefore stated for texts of digits ([Observe.id_text],
    [IdText.rowid_of_id_text]). *)
Definition rowid_of_text (s : string) : option Z :=
  let (neg, r) := JsNumber.strip_sign (JsString.strip is_space s) in
  let integer :=
    match JsNumber.span_digits 10 r 0%N 0 with
    | (v, count, EmptyString) =>
        let z := if neg then - Z.of_N v else Z.of_N v in
        if (0 <? count) && in_int64 z then Some z else None
    | _ => None
    end in
  match integer with
  | Some z => Some z
  | None =>
      match JsNumber.unsigned_decimal r with
      | Some (m, e10) =>
          match integer_affinity (SqlReal (of_decimal neg m e10)) with
          | SqlInt z => Some z
          | SqlReal _ => None
          end
      | None => None
      end
  end.

(** *** Tables *)

Record user : Type := mk_user {
  user_id : Z;
  user_email : string;
  user_password_hash : string
}.

Record product : Type := mk_product {
  product_id : Z;
  product_name : string;
  product_quantity : sqlnum
}.

(** The two tables, rows in insertion order, with the AUTOINCREMENT
    counter of each (the largest id handed out so far).  Running out of
    64-bit ids is not modelled. *)
Record database : Type := mk_database {
  users : list user;
  users_seq : Z;
  products : list product;
  products_seq : Z
}.

Inductive error : Type :=
| TypeError
| BcryptError
| SqliteError (code : string).

Definition with_users (us : list user) (seq : Z) (d : database) : database :=
  mk_database us seq (products d) (products_seq d).

Definition with_products (ps : list product) (seq : Z) (d : database)
  : database :=
  mk_database (users d) (users_seq d) ps seq.

(** [SELECT COUNT( * ) AS c FROM products] *)
Definition count_products (d : database) : Z :=
  Z.of_nat (List.length (products d)).

(** The table with one more row, under the next id. *)
Definition appended (name : string) (q : sqlnum) (d : database) : database :=
  let id := products_seq d + 1 in
  with_products (products d ++ [mk_product id name (integer_affinity q)]) id d.

(** [INSERT INTO products (name, quantity) VALUES (?, ?)]; [quantity] is
    NOT NULL and has INTEGER affinity. *)
Definition insert_product (name : string) (quantity : option sqlnum)
    (d : database) : error + database :=
  match quantity with
  | None => inl (SqliteError "SQLITE_CONSTRAINT_NOTNULL")
  | Some q => inr (appended name q d)
  end.

(** [UPDATE products SET quantity = e(quantity) WHERE id = ?]: the new
    quantity of one row, or NULL. *)
Definition set_quantity (e : sqlnum -> option sqlnum) (p : product)
  : option product :=
  match e (product_quantity p) with
  | Some q => Some (mk_product (product_id p) (product_name p)
                               (integer_affinity q))
  | None => None
  end.

Definition matches (param : string) (p : product) : bool :=
  match rowid_of_text param with
  | Some z => z =? product_id p
  | None => false
  end.

(** The rows after the UPDATE, or [None] when a new quantity is NULL (the
    statement then fails on NOT NULL and changes nothing). *)
Fixpoint update_rows (e : sqlnum -> option sqlnum) (param : string)
    (ps : list product) : option (list product) :=
  match ps with
  | [] => Some []
  | p :: rest =>
      match (if matches param p then set_quantity e p else Some p),
            update_rows e param rest with
      | Some p', Some rest' => Some (p' :: rest')
      | _, _ => None
      end
  end.

Definition update_quantity (e : sqlnum -> option sqlnum) (param : string)
    (d : database) : error + database :=
  match update_rows e param (products d) with
  | Some ps => inr (with_products ps (products_seq d) d)
  | None => inl (SqliteError "SQLITE_CONSTRAINT_NOTNULL")
  end.

(** [quantity + 1] *)
Definition plus_one (q : sqlnum) : option sqlnum := sql_add q (SqlInt 1).

(** [MAX(quantity - 1, 0)] *)
Definition minus_one_floor (q : sqlnum) : option sqlnum :=
  sql_max (sql_sub q (SqlInt 1)) (Some (SqlInt 0)).

(** [DELETE FROM products WHERE id = ?] *)
Definition delete_product (param : string) (d : database) : database :=
  with_products (filter (fun p => negb (matches param p)) (products d))
                (products_seq d) d.

(** [SELECT * FROM products ORDER BY id] *)
Fixpoint insert_by_id (p : product) (ps : list product) : list product :=
  match ps with
  | [] => [p]
  | q :: rest => if product_id p <? product_id q then p :: ps
                 else q :: insert_by_id p rest
  end.

Definition select_products (d : database) : list product :=
  fold_right insert_by_id [] (products d).

(** [SELECT * FROM users WHERE email = ?], first row. *)
Definition select_user (email : string) (d : database) : option user :=
  find (fun u => (user_email u =? email)%string) (users d).

(** [INSERT INTO users (email, password_hash) VALUES (?, ?)]; [email] is
    UNIQUE. *)
Definition insert_user (email hash : string) (d : database)
  : error + database :=
  match select_user email d with
  | Some _ => inl (SqliteError "SQLITE_CONSTRAINT_UNIQUE")
  | None =>
      let id := users_seq d + 1 in
      inr (with_users (users d ++ [mk_user id email hash]) id d)
  end.

(** *** Observations used in the statements *)

(** [quantity < 0], as SQLite compares. *)
Definition is_negative (q : sqlnum) : bool := sql_lt q (SqlInt 0).

(** No row of [products] has a negative quantity. *)
Definition no_negative (d : database) : Prop :=
  Forall (fun p => is_negative (product_quantity p) = false) (products d).

(** The row with a given id, and its quantity. *)
Definition product_by_id (id : Z) (d : database) : option product :=
  find (fun p => product_id p =? id) (products d).

Definition quantity_of (id : Z) (d : database) : option sqlnum :=
  option_map product_quantity (product_by_id id d).

(** PRIMARY KEY AUTOINCREMENT on [products.id]: ids are distinct, and none
    is above the counter. *)
Definition primary_key (d : database) : Prop :=
  NoDup (map product_id (products d))
  /\ Forall (fun p => product_id p <= products_seq d) (products d).

(** How many users are stored under an email. *)
Definition count_users (email : string) (d : database) : nat :=
  List.length
    (filter (fun u => (user_email u =? email)%string) (users d)).

End Sqlite.

(* ===================================================================== *)
(** ** The server *)
(* ===================================================================== *)

Module Server.
Import JsString Sqlite.

(** *** Requests, sessions, responses *)

(** What the urlencoded decoder ([extended: true]) puts under a name of
    [req.body]: a string, or, for repeated and bracketed names such as
    [email[]=x] and [email[k]=x], an array or an object of such values. *)
#[warnings="-register-all"] Inductive value : Type :=
| Str (s : string)
| Arr (items : list value)
| Obj (props : list (string * value)).

(** [req.body], the decoded form: field names with their values, each
    name once.  A field that is not in the list is [undefined]. *)
Definition body : Type := list (string * value).

Fixpoint field (b : body) (name : string) : option value :=
  match b with
  | [] => None
  | (k, v) :: rest => if (k =? name)%string then Some v else field rest name
  end.

(** [typeof v === "string"]: the string a value is, when it is one. *)
Definition as_string (v : value) : option string :=
  match v with
  | Str s => Some s
  | Arr _ | Obj _ => None
  end.

(** The string under a field; nothing for [undefined], an array or an
    object. *)
Definition string_field (v : option value) : option string :=
  match v with
  | Some x => as_string x
  | None => None
  end.

(** [v || ""] for a field [v]: the field itself unless it is [undefined]
    or the empty string; arrays and objects are truthy. *)
Definition or_empty_field (v : option value) : value :=
  match v with
  | None | Some (Str EmptyString) => Str EmptyString
  | Some x => x
  end.

(** [String(v)]: an array is its elements joined by commas, an object is
    [[object Object]]. *)
Fixpoint to_string (v : value) : string :=
  match v with
  | Str s => s
  | Arr items =>
      (fix join (l : list value) : string :=
         match l with
         | [] => EmptyString
         | x :: rest =>
             match rest with
             | [] => to_string x
             | _ :: _ => to_string x ++ "," ++ join rest
             end
         end) items
  | Obj _ => "[object Object]"
  end.

(** [v || ""] for a string or [null]. *)
Definition or_empty (v : option string) : string :=
  match v with
  | Some s => s
  | None => EmptyString
  end.

(** [!v] for a string or [undefined]. *)
Definition falsy (v : option string) : bool :=
  match v with
  | Some s => negb (truthy s)
  | None => true
  end.

(** [a === b] for a field [a] and a string or [undefined] [b]: an array
    or an object equals no string. *)
Definition strict_eq (a : option value) (b : option string) : bool :=
  match a, b with
  | Some (Str x), Some y => (x =? y)%string
  | None, None => true
  | _, _ => false
  end.

(** [{ id: user.id, email: user.email }]: the id is the JavaScript number
    better-sqlite3 returns for the INTEGER column. *)
Record session_user : Type := mk_session_user {
  su_id : Double.double;
  su_email : string
}.

(** [req.session]: the session of the browser that sends the request. *)
Record session : Type := mk_session {
  s_user : option session_user;
  s_flash : option string
}.

Definition empty_session : session := mk_session None None.

(** A row of [products] as better-sqlite3 hands it to JavaScript: an
    INTEGER arrives as a number, the double nearest to it, and a REAL as
    the double it is. *)
Record row : Type := mk_row {
  row_id : Double.double;
  row_name : string;
  row_quantity : Double.double
}.

Definition js_row (p : product) : row :=
  mk_row (Double.of_Z (product_id p)) (product_name p)
         (real_of (product_quantity p)).

(** What [page(title, body, opts)] is called on; the markup itself is
    presentation. *)
Inductive view : Type :=
| RegisterForm
| RegisterFailed (msg : string)
| LoginForm (flash : string)
| Inventory (email : string) (rows : list row).

Inductive response : Type :=
| Redirect (location : string)
| Send (text : string)
| Render (v : view)
| Uncaught (e : error).

(** Calls that leave the handler: statements run on the database and
    bcrypt computations, in the order they are made. *)
Inductive call : Type :=
| SelectUser (email : string)
| InsertUser (email hash : string)
| SelectProducts
| InsertProduct (name : string) (quantity : option sqlnum)
| UpdateIncr (id : string)
| UpdateDecr (id : string)
| DeleteProduct (id : string)
| BcryptHash (password : string)
| BcryptCompare (password hash : string).

Record world : Type := mk_world {
  db : database;
  sess : session;
  salt : N;
  calls : list call
}.

(** The world after a call was recorded, with another database, and with
    another session. *)
Definition called (c : call) (w : world) : world :=
  mk_world (db w) (sess w) (salt w) (calls w ++ [c]).

Definition with_db (d : database) (w : world) : world :=
  mk_world d (sess w) (salt w) (calls w).

Definition with_sess (s : session) (w : world) : world :=
  mk_world (db w) s (salt w) (calls w).

(** *** Handler monad: state, and exceptions *)

Definition M (A : Type) : Type := world -> (error + A) * world.

Definition ret {A} (a : A) : M A := fun w => (inr a, w).

Definition throw {A} (e : error) : M A := fun w => (inl e, w).

Definition bind {A B} (m : M A) (k : A -> M B) : M B :=
  fun w => match m w with
           | (inr a, w') => k a w'
           | (inl e, w') => (inl e, w')
           end.

(** [try { m } catch (e) { h e }] *)
Definition try_catch {A} (m : M A) (h : error -> M A) : M A :=
  fun w => match m w with
           | (inr a, w') => (inr a, w')
           | (inl e, w') => h e w'
           end.

Notation "x <- m ;; k" := (bind m (fun x => k))
  (at level 61, m at next level, right associativity).
Notation "m ;;; k" := (bind m (fun _ => k))
  (at level 61, right associativity).

Definition record (c : call) : M unit := fun w => (inr tt, called c w).

Definition get_session : M session := fun w => (inr (sess w), w).

Definition set_session (s : session) : M unit :=
  fun w => (inr tt, with_sess s w).

(** A statement that reads. *)
Definition query {A} (c : call) (q : database -> A) : M A :=
  record c ;;; fun w => (inr (q (db w)), w).

(** A statement that writes; a failed statement changes nothing. *)
Definition run (c : call) (stmt : database -> error + database) : M unit :=
  record c ;;;
  fun w => match stmt (db w) with
           | inr d => (inr tt, with_db d w)
           | inl e => (inl e, w)
           end.

(** The answer of a handler; an exception that no handler code catches
    (in the two [async] handlers, a rejected promise) is left to Express,
    and the server is taken to go on serving. *)
Definition respond (m : M response) (w : world) : response * world :=
  match m w with
  | (inr r, w') => (r, w')
  | (inl e, w') => (Uncaught e, w')
  end.

(** *** Messages *)

Definition msg_invalid_token : string :=
  "Token de acesso inv" ++ chr 225 ++ "lido.".
Definition msg_invalid_credentials : string :=
  "Credenciais inv" ++ chr 225 ++ "lidas".
Definition msg_registered : string :=
  "Cadastro realizado. Fa" ++ chr 231 ++ "a login.".
Definition msg_duplicate : string := "Email j" ++ chr 225 ++ " cadastrado.".
Definition msg_error : string := "Erro.".

(** *** Start-up *)

(** [seed.run(name, quantity)], run when the statements before it did not
    throw. *)
Definition seed (name : string) (quantity : Z) (d : error + database)
  : error + database :=
  match d with
  | inr d' => insert_product name (bind_number (Double.of_Z quantity)) d'
  | inl e => inl e
  end.

(** The code run when the module is loaded, after the two CREATE TABLE IF
    NOT EXISTS: three rows are inserted when [products] is empty. *)
Definition startup (d : database) : error + database :=
  let hasProducts := 0 <? count_products d in
  if negb hasProducts then
    let d1 := seed "Tinto Reserva" 12 (inr d) in
    let d2 := seed "Branco Seco" 8 d1 in
    seed ("Ros" ++ chr 233 ++ " Suave") 5 d2
  else inr d.

Section Handlers.

(** [process.env.ACCESS_TOKEN] *)
Variable ACCESS_TOKEN : option string.

(** bcryptjs: [bcrypt_hash p s] is the hash of [p] under the salt drawn
    at state [s] of the generator; [bcrypt_compare p h] tells whether
    [p] is the password [h] was made from. *)
Variable bcrypt_hash : string -> N -> string.
Variable bcrypt_compare : string -> string -> bool.

(** [await bcrypt.hash(password, 10)]: rejects unless [password] is a
    string. *)
Definition hash (password : option value) : M string :=
  match string_field password with
  | None => throw BcryptError
  | Some p =>
      record (BcryptHash p) ;;;
      fun w => (inr (bcrypt_hash p (salt w)),
                mk_world (db w) (sess w) (salt w + 1)%N (calls w))
  end.

(** [await bcrypt.compare(password, hash)]: rejects unless [password] is
    a string. *)
Definition compare (password : value) (h : string) : M bool :=
  match as_string password with
  | None => throw BcryptError
  | Some p => record (BcryptCompare p h) ;;; ret (bcrypt_compare p h)
  end.

(** [v.trim()] on a field: a TypeError on [undefined], and on an array or
    an object, which have no such method. *)
Definition trim_field (v : option value) : M string :=
  match string_field v with
  | Some s => ret (trim s)
  | None => throw TypeError
  end.

Definition requireAuth (next : M response) : M response :=
  s <- get_session ;;
  match s_user s with
  | None => ret (Redirect "/login")
  | Some _ => next
  end.

(** [GET /] *)
Definition get_root : M response :=
  s <- get_session ;;
  match s_user s with
  | Some _ => ret (Redirect "/inventory")
  | None => ret (Redirect "/login")
  end.

(** [GET /register] *)
Definition get_register : M response := ret (Render RegisterForm).

(** [POST /register] *)
Definition post_register (b : body) : M response :=
  let email := field b "email" in
  let password := field b "password" in
  try_catch
    (h <- hash password ;;
     e <- trim_field email ;;
     let e := toLowerCase e in
     run (InsertUser e h) (insert_user e h) ;;;
     s <- get_session ;;
     set_session (mk_session (s_user s) (Some msg_registered)) ;;;
     ret (Redirect "/login"))
    (fun e =>
       let msg := match e with
                  | SqliteError "SQLITE_CONSTRAINT_UNIQUE" => msg_duplicate
                  | _ => msg_error
                  end in
       ret (Render (RegisterFailed msg))).

(** [GET /login] *)
Definition get_login : M response :=
  s <- get_session ;;
  let flash := or_empty (s_flash s) in
  set_session (mk_session (s_user s) None) ;;;
  ret (Render (LoginForm flash)).

(** [POST /login] *)
Definition post_login (b : body) : M response :=
  let email := field b "email" in
  let password := field b "password" in
  let accessToken := field b "accessToken" in
  let expectedToken := ACCESS_TOKEN in
  if falsy expectedToken || negb (strict_eq accessToken expectedToken)
  then ret (Send msg_invalid_token)
  else
    e <- trim_field (Some (or_empty_field email)) ;;
    let e := toLowerCase e in
    user <- query (SelectUser e) (select_user e) ;;
    match user with
    | None => ret (Send msg_invalid_credentials)
    | Some u =>
        ok <- compare (or_empty_field password) (user_password_hash u) ;;
        if negb ok then ret (Send msg_invalid_credentials)
        else
          s <- get_session ;;
          set_session
            (mk_session
               (Some (mk_session_user (Double.of_Z (user_id u))
                                      (user_email u)))
               (s_flash s)) ;;;
          ret (Redirect "/inventory")
    end.

(** [POST /logout] *)
Definition post_logout : M response :=
  set_session empty_session ;;; ret (Redirect "/login").

(** [GET /inventory] *)
Definition get_inventory : M response :=
  requireAuth
    (rows <- query SelectProducts (fun d => map js_row (select_products d)) ;;
     s <- get_session ;;
     match s_user s with
     | Some u => ret (Render (Inventory (su_email u) rows))
     | None => throw TypeError
     end).

(** [Number(req.body.quantity || 0)]: an array or an object is truthy,
    and is converted through its string. *)
Definition quantity_number (v : option value) : Double.double :=
  match v with
  | Some (Str s) => if truthy s then JsNumber.Number s else Double.of_Z 0
  | Some x => JsNumber.Number (to_string x)
  | None => Double.of_Z 0
  end.

(** [POST /inventory/add] *)
Definition post_add (b : body) : M response :=
  requireAuth
    (name <- trim_field (field b "name") ;;
     let quantity := bind_number (quantity_number (field b "quantity")) in
     run (InsertProduct name quantity) (insert_product name quantity) ;;;
     ret (Redirect "/inventory")).

(** [POST /inventory/:id/incr] *)
Definition post_incr (id : string) : M response :=
  requireAuth
    (run (UpdateIncr id) (update_quantity plus_one id) ;;;
     ret (Redirect "/inventory")).

(** [POST /inventory/:id/decr] *)
Definition post_decr (id : string) : M response :=
  requireAuth
    (run (UpdateDecr id) (update_quantity minus_one_floor id) ;;;
     ret (Redirect "/inventory")).

(** [POST /inventory/:id/delete] *)
Definition post_delete (id : string) : M response :=
  requireAuth
    (run (DeleteProduct id) (fun d => inr (delete_product id d)) ;;;
     ret (Redirect "/inventory")).

(** *** Routing *)

Inductive request : Type :=
| GetRoot
| GetRegister
| PostRegister (b : body)
| GetLogin
| PostLogin (b : body)
| PostLogout
| GetInventory
| PostAdd (b : body)
| PostIncr (id : string)
| PostDecr (id : string)
| PostDelete (id : string).

Definition handler (r : request) : M response :=
  match r with
  | GetRoot => get_root
  | GetRegister => get_register
  | PostRegister b => post_register b
  | GetLogin => get_login
  | PostLogin b => post_login b
  | PostLogout => post_logout
  | GetInventory => get_inventory
  | PostAdd b => post_add b
  | PostIncr id => post_incr id
  | PostDecr id => post_decr id
  | PostDelete id => post_delete id
  end.

Definition handle (r : request) (w : world) : response * world :=
  respond (handler r) w.

(** The world after a sequence of requests of one browser. *)
Fixpoint serve (rs : list request) (w : world) : world :=
  match rs with
  | [] => w
  | r :: rest => serve rest (snd (handle r w))
  end.

End Handlers.

(** *** Observations used in the statements *)

Definition is_incr_or_decr (r : request) : Prop :=
  match r with
  | PostIncr _ | PostDecr _ => True
  | _ => False
  end.

Definition authenticated (w : world) : bool :=
  match s_user (sess w) with
  | Some _ => true
  | None => false
  end.

(** The token check of [POST /login]: the configured token is missing or
    empty, or the presented one is not it. *)
Definition token_rejected (tok : option string) (b : body) : bool :=
  falsy tok || negb (strict_eq (field b "accessToken") tok).

(** The email a login or a registration is filed under. *)
Definition normalize (email : string) : string := toLowerCase (trim email).

End Server.

(* ===================================================================== *)
(** ** A running instance *)
(* ===================================================================== *)

(** A configuration to run the handlers on: an access token, and a stand-in
    for bcryptjs that keeps the one property the handlers rely on,
    [compare] accepts the password a hash was made from and no other. *)
Module Example.
Import Sqlite Server.

Definition token : option string := Some "segredo".

Definition bcrypt_hash (password : string) (salt : N) : string :=
  "$2a$10$" ++ password.

Definition bcrypt_compare (password h : string) : bool :=
  (h =? bcrypt_hash password 0)%string.

(** The handlers of this configuration. *)
Definition answer : request -> world -> response * world :=
  Server.handle token bcrypt_hash bcrypt_compare.

Definition replay : list request -> world -> world :=
  Server.serve token bcrypt_hash bcrypt_compare.

(** The database of a first run, after the seeding. *)
Definition empty_db : database := mk_database [] 0 [] 0.

Definition seeded : database :=
  match startup empty_db with
  | inr d => d
  | inl _ => empty_db
  end.

(** A browser that has not logged in. *)
Definition visitor : world := mk_world seeded empty_session 0 [].

Definition signup : body :=
  [("email", Str "a@x.com"); ("password", Str "pass1")].

Definition credentials : body :=
  [("email", Str "a@x.com"); ("password", Str "pass1");
   ("accessToken", Str "segredo")].

(** The same browser after registration, and after login. *)
Definition visitor_registered : world := replay [PostRegister signup] visitor.

Definition member : world :=
  replay [PostLogin credentials] visitor_registered.

End Example.

(* ===================================================================== *)
(** ** Invariants and observations *)
(* ===================================================================== *)

(** What the statements about whole runs of the server are written
    with. *)
Module Observe.
Import Sqlite Server.

(** The routes registered behind [requireAuth]. *)
Definition inventory_route (r : request) : Prop :=
  match r with
  | GetInventory | PostAdd _ | PostIncr _ | PostDecr _ | PostDelete _ => True
  | _ => False
  end.

(** The rows of [products] are in ascending id order, below the counter:
    the order of the table is the order of creation. *)
Definition creation_order (d : database) : Prop :=
  StronglySorted Z.lt (map product_id (products d))
  /\ Forall (fun p => product_id p <= products_seq d) (products d).

(** UNIQUE on [users.email]. *)
Definition emails_unique (d : database) : Prop :=
  NoDup (map user_email (users d)).

(** Every stored email is trimmed and in lower case. *)
Definition emails_normalized (d : database) : Prop :=
  Forall (fun u => normalize (user_email u) = user_email u) (users d).

(** No stored product name starts or ends with white space. *)
Definition names_trimmed (d : database) : Prop :=
  Forall (fun p => JsString.trim (product_name p) = product_name p)
         (products d).

(** A value SQLite can hold: an INTEGER, or a REAL that is not NaN. *)
Definition is_number (q : sqlnum) : bool :=
  match q with
  | SqlInt _ => true
  | SqlReal f => negb (Double.is_nan f)
  end.

Definition quantities_are_numbers (d : database) : Prop :=
  Forall (fun p => is_number (product_quantity p) = true) (products d).

(** The session, when it has a user, has the id (as a JavaScript number)
    and the email of a row of [users]. *)
Definition session_bound (w : world) : Prop :=
  match s_user (sess w) with
  | None => True
  | Some su => exists u, In u (users (db w))
                         /\ Double.of_Z (user_id u) = su_id su
                         /\ user_email u = su_email su
  end.

(** A request that stores no negative quantity of its own: any request
    but an add whose quantity is a negative number. *)
Definition brings_no_negative (r : request) : Prop :=
  match r with
  | PostAdd b =>
      forall q, bind_number (quantity_number (field b "quantity")) = Some q ->
                is_negative (integer_affinity q) = false
  | _ => True
  end.

(** A string of decimal digits, and the number it writes. *)
Definition is_digit (c : ascii) : bool :=
  let n := JsString.code c in ((48 <=? n) && (n <=? 57))%N.

Fixpoint all_digits (s : string) : bool :=
  match s with
  | EmptyString => true
  | String c r => is_digit c && all_digits r
  end.

Fixpoint digits_value (s : string) (acc : N) : N :=
  match s with
  | EmptyString => acc
  | String c r => digits_value r (acc * 10 + (JsString.code c - 48))%N
  end.

(** An id the way the links of the inventory page write it: decimal
    digits, one at least and eighteen at most, and the integer they write.
    SQLite reads such a text as that 64-bit integer, and so does
    [rowid_of_text]; the statements that say which row a request addresses
    are made for these texts. *)
Definition id_text (s : string) : bool :=
  all_digits s
  && (0 <? Z.of_nat (String.length s))
  && (Z.of_nat (String.length s) <=? 18).

Definition id_number (s : string) : Z := Z.of_N (digits_value s 0).



(** What one request can do to the database: nothing, one of the two
    INSERTs, one of the two UPDATEs, or the DELETE. *)
Inductive db_step (d : database) : database -> Prop :=
| db_same : db_step d d
| db_registered (email h : string) :
    select_user (normalize email) d = None ->
    db_step d (with_users
                 (users d ++ [mk_user (users_seq d + 1) (normalize email) h])
                 (users_seq d + 1) d)
| db_added (name : string) (q : sqlnum) :
    is_number q = true ->
    db_step d (appended (JsString.trim name) q d)
| db_incremented (param : string) (d' : database) :
    update_quantity plus_one param d = inr d' -> db_step d d'
| db_decremented (param : string) (d' : database) :
    update_quantity minus_one_floor param d = inr d' -> db_step d d'
| db_deleted (param : string) : db_step d (delete_product param d).

End Observe.

(* ===================================================================== *)
(** ** Facts about doubles *)
(* ===================================================================== *)

Module DoubleFacts.
Import Double.

Lemma iter_pos_invariant {A : Type} (P : A -> Prop) (f : A -> A) :
  (forall x, P x -> P (f x)) ->
  forall p x, P x -> P (iter_pos f p x).
Proof.
  intros Hf. induction p as [p IH | p IH |]; intros x Hx; simpl; auto.
Qed.

Lemma shr_1_nonneg (mrs : shr_record) :
  0 <= shr_m mrs -> 0 <= shr_m (shr_1 mrs).
Proof.
  destruct mrs as [m r s]. simpl.
  destruct m as [| [p | p |] | p]; simpl; lia.
Qed.

Lemma shr_nonneg (mrs : shr_record) (e n : Z) :
  0 <= shr_m mrs -> 0 <= shr_m (fst (shr mrs e n)).
Proof.
  intros H. destruct n; simpl; auto.
  apply (iter_pos_invariant (fun x => 0 <= shr_m x)); auto using shr_1_nonneg.
Qed.

Lemma shr_fexp_nonneg (m e : Z) (l : location) :
  0 <= m -> 0 <= shr_m (fst (shr_fexp prec emax m e l)).
Proof.
  intros H. unfold shr_fexp. apply shr_nonneg.
  destruct l as [| []]; simpl; exact H.
Qed.

Lemma round_nearest_even_nonneg (m : Z) (l : location) :
  0 <= m -> 0 <= round_nearest_even m l.
Proof.
  intros H. destruct l as [| []]; simpl; try lia.
  destruct (Z.even m); lia.
Qed.

(** Rounding a non-negative mantissa never gives NaN and keeps the sign
    it is given. *)
Lemma binary_round_aux_sign (sx : bool) (mx ex : Z) (lx : location) :
  0 <= mx -> has_sign sx (binary_round_aux prec emax sx mx ex lx).
Proof.
  intros H. unfold binary_round_aux.
  pose proof (shr_fexp_nonneg mx ex lx H) as H1.
  destruct (shr_fexp prec emax mx ex lx) as [mrs' e'].
  simpl in H1.
  pose proof (shr_fexp_nonneg
                (round_nearest_even (shr_m mrs') (loc_of_shr_record mrs'))
                e' loc_Exact
                (round_nearest_even_nonneg _ _ H1)) as H2.
  destruct (shr_fexp prec emax _ e' loc_Exact) as [mrs'' e''].
  simpl in H2.
  destruct (shr_m mrs'') as [| p | p]; simpl; try reflexivity.
  - destruct (e'' <=? _); reflexivity.
  - lia.
Qed.

Lemma binary_round_sign (sx : bool) (mx : positive) (ex : Z) :
  has_sign sx (binary_round prec emax sx mx ex).
Proof.
  unfold binary_round.
  destruct (shl_align mx ex _) as [mz ez].
  apply binary_round_aux_sign. lia.
Qed.

Lemma binary_normalize_sign (m e : Z) :
  has_sign (m <? 0) (binary_normalize prec emax m e false).
Proof.
  destruct m; simpl; try reflexivity; apply binary_round_sign.
Qed.

Lemma of_Z_sign (z : Z) : has_sign (z <? 0) (of_Z z).
Proof. apply binary_normalize_sign. Qed.

Lemma has_sign_not_below_zero (f : double) :
  has_sign false f -> not_below_zero f.
Proof. destruct f; simpl; auto. Qed.

(** Adding a positive number to a number that is not below zero gives a
    positive number. *)
Lemma add_positive (f g : double) :
  not_below_zero f -> has_sign false g -> g <> S754_zero false ->
  has_sign false (add f g).
Proof.
  intros Hf Hg Hz.
  destruct f as [sf | sf | | sf mf ef], g as [sg | sg | | sg mg eg];
    simpl in *; subst; try congruence; try contradiction; try reflexivity.
  unfold cond_Zopp. rewrite <- Pos2Z.inj_add. apply binary_round_sign.
Qed.

Lemma to_Z_not_below_zero (f : double) (z : Z) :
  not_below_zero f -> to_Z f = Some z -> 0 <= z.
Proof.
  destruct f as [s | s | | s m e]; cbn [to_Z not_below_zero];
    intros H E; try discriminate.
  - injection E as <-. lia.
  - subst s. cbv iota zeta in E.
    assert (H1 : 0 <= Z.pos m * 2 ^ e).
    { destruct (Z.le_gt_cases 0 e) as [He | He].
      - apply Z.mul_nonneg_nonneg; [lia | apply Z.pow_nonneg; lia].
      - rewrite (Z.pow_neg_r 2 e) by lia. lia. }
    assert (H2 : 0 <= Z.pos m / 2 ^ (- e)).
    { apply Z_div_nonneg_nonneg; [lia | apply Z.pow_nonneg; lia]. }
    destruct (0 <=? e); [congruence |].
    destruct (_ =? 0); congruence.
Qed.

(** *** Rounding an integer below 2^53 *)

Lemma digits2_pos_bounds (p : positive) :
  2 ^ (Z.pos (digits2_pos p) - 1) <= Z.pos p < 2 ^ Z.pos (digits2_pos p).
Proof.
  induction p as [p IH | p IH |]; simpl digits2_pos.
  - rewrite Pos2Z.inj_succ.
    replace (Z.succ (Z.pos (digits2_pos p)) - 1)
      with (Z.succ (Z.pos (digits2_pos p) - 1)) by lia.
    rewrite !Z.pow_succ_r by lia. lia.
  - rewrite Pos2Z.inj_succ.
    replace (Z.succ (Z.pos (digits2_pos p)) - 1)
      with (Z.succ (Z.pos (digits2_pos p) - 1)) by lia.
    rewrite !Z.pow_succ_r by lia. lia.
  - simpl. lia.
Qed.

Lemma digits2_pos_le (p : positive) (n : Z) :
  0 <= n -> Z.pos p < 2 ^ n -> Z.pos (digits2_pos p) <= n.
Proof.
  intros Hn H. destruct (Z.le_gt_cases (Z.pos (digits2_pos p)) n) as [L | G];
    [exact L | exfalso].
  pose proof (digits2_pos_bounds p) as [B _].
  assert (2 ^ n <= 2 ^ (Z.pos (digits2_pos p) - 1))
    by (apply Z.pow_le_mono_r; lia).
  lia.
Qed.

Lemma iter_xO_value (k p : positive) :
  Z.pos (Pos.iter xO p k) = Z.pos p * 2 ^ Z.pos k.
Proof.
  revert p. induction k as [| k IH] using Pos.peano_ind; intros p.
  - simpl. lia.
  - rewrite Pos.iter_succ, Pos2Z.inj_xO, IH, Pos2Z.inj_succ.
    rewrite Z.pow_succ_r by lia. lia.
Qed.

Lemma iter_xO_digits (k p : positive) :
  digits2_pos (Pos.iter xO p k) = (digits2_pos p + k)%positive.
Proof.
  revert p. induction k as [| k IH] using Pos.peano_ind; intros p.
  - simpl. lia.
  - rewrite Pos.iter_succ. simpl. rewrite IH. lia.
Qed.

(** A mantissa of 53 bits with an exponent in range is not rounded. *)
Lemma binary_round_aux_exact (sx : bool) (mz : positive) (ez : Z) :
  digits2_pos mz = 53%positive ->
  -1074 <= ez <= 971 ->
  binary_round_aux prec emax sx (Z.pos mz) ez loc_Exact
  = S754_finite sx mz ez.
Proof.
  intros D B.
  assert (F : fexp prec emax (Zdigits2 (Z.pos mz) + ez) - ez = 0).
  { unfold fexp, emin, prec, emax. simpl Zdigits2. rewrite D. lia. }
  unfold binary_round_aux, shr_fexp.
  cbn [shr_record_of_loc]. rewrite F. cbn [shr shr_m loc_of_shr_record].
  cbn [round_nearest_even shr_record_of_loc]. rewrite F.
  cbn [shr shr_m].
  replace (ez <=? emax - prec) with true; [reflexivity |].
  symmetry. apply Z.leb_le. unfold emax, prec. lia.
Qed.

(** The double nearest to an integer below 2^53 is that integer. *)
Lemma binary_round_exact (sx : bool) (p : positive) :
  Z.pos p < 2 ^ 53 ->
  to_Z (binary_round prec emax sx p 0)
  = Some (if sx then Z.neg p else Z.pos p).
Proof.
  intros H.
  pose proof (digits2_pos_le p 53 ltac:(lia) H) as D.
  unfold binary_round.
  assert (F : fexp prec emax (Z.pos (digits2_pos p) + 0)
              = Z.pos (digits2_pos p) - 53).
  { unfold fexp, emin, prec, emax. lia. }
  rewrite F. unfold shl_align.
  destruct (Z.pos (digits2_pos p) - 53 - 0) as [| k | k] eqn:K; try lia.
  - rewrite binary_round_aux_exact; [| lia | lia].
    unfold to_Z. destruct sx; simpl; f_equal; lia.
  - rewrite binary_round_aux_exact.
    + unfold to_Z.
      replace (0 <=? Z.pos (digits2_pos p) - 53) with false
        by (symmetry; apply Z.leb_gt; lia).
      replace (- (Z.pos (digits2_pos p) - 53)) with (Z.pos k) by lia.
      assert (V : (if sx then Z.neg (Pos.iter xO p k)
                   else Z.pos (Pos.iter xO p k))
                  = (if sx then Z.neg p else Z.pos p) * 2 ^ Z.pos k).
      { pose proof (iter_xO_value k p) as I. destruct sx; lia. }
      rewrite V.
      rewrite Z.mod_mul by (apply Z.pow_nonzero; lia).
      simpl (0 =? 0). cbv iota.
      rewrite Z.div_mul by (apply Z.pow_nonzero; lia). reflexivity.
    + rewrite iter_xO_digits. lia.
    + lia.
Qed.

(** Every integer of magnitude at most 2^53 is a double: converting it
    loses nothing. *)
Lemma of_Z_exact (z : Z) : Z.abs z <= 2 ^ 53 -> to_Z (of_Z z) = Some z.
Proof.
  intros H. unfold of_Z, binary_normalize.
  destruct z as [| p | p]; [reflexivity | |].
  - destruct (Z.eq_dec (Z.pos p) (2 ^ 53)) as [E | N].
    + injection E as ->. reflexivity.
    + apply (binary_round_exact false p). lia.
  - destruct (Z.eq_dec (Z.pos p) (2 ^ 53)) as [E | N].
    + injection E as ->. reflexivity.
    + apply (binary_round_exact true p). lia.
Qed.

End DoubleFacts.

(* ===================================================================== *)
(** ** Facts about the quantity column *)
(* ===================================================================== *)

Module SqliteFacts.
Import Double DoubleFacts Sqlite.

Lemma is_negative_int (z : Z) : is_negative (SqlInt z) = false <-> 0 <= z.
Proof. unfold is_negative. simpl. apply Z.ltb_ge. Qed.

Lemma not_below_zero_not_negative (f : double) :
  not_below_zero f -> is_negative (SqlReal f) = false.
Proof.
  unfold is_negative.
  destruct f as [s | s | | s m e];
    cbn [sql_lt compare_Z not_below_zero]; intros H; subst;
    try reflexivity; try contradiction.
  cbv zeta iota.
  destruct (0 <=? e) eqn:He.
  - apply Z.leb_le in He.
    assert (0 <= Z.pos m * 2 ^ e)
      by (apply Z.mul_nonneg_nonneg; [lia | apply Z.pow_nonneg; lia]).
    destruct (Z.compare_spec (Z.pos m * 2 ^ e) 0); try reflexivity.
    exfalso. lia.
  - reflexivity.
Qed.

Lemma not_negative_not_below_zero (f : double) :
  is_nan f = false -> is_negative (SqlReal f) = false -> not_below_zero f.
Proof.
  unfold is_negative.
  destruct f as [s | s | | s m e];
    cbn [sql_lt compare_Z not_below_zero is_nan]; intros N H;
    try discriminate; auto.
  - destruct s; [discriminate | reflexivity].
  - destruct s; [| reflexivity]. exfalso. cbv zeta iota in H.
    destruct (0 <=? e) eqn:He.
    + apply Z.leb_le in He.
      assert (0 < 2 ^ e) by (apply Z.pow_pos_nonneg; lia).
      assert (C : Z.neg m * 2 ^ e < 0) by (apply Z.mul_neg_pos; lia).
      rewrite C in H. discriminate.
    + discriminate.
Qed.

(** Column affinity does not make a quantity negative. *)
Lemma integer_affinity_not_negative (q : sqlnum) :
  is_negative q = false -> is_negative (integer_affinity q) = false.
Proof.
  destruct q as [z | f]; simpl; auto.
  intros H.
  destruct (to_Z f) as [z |] eqn:E; auto.
  destruct ((min_int64 <? z) && (z <? max_int64)); auto.
  apply is_negative_int.
  apply (to_Z_not_below_zero f); auto.
  apply not_negative_not_below_zero; auto.
  destruct f; try reflexivity; discriminate.
Qed.

Lemma real_result_some (f : double) (q : sqlnum) :
  real_result f = Some q -> q = SqlReal f /\ is_nan f = false.
Proof.
  unfold real_result. destruct (is_nan f) eqn:N; [discriminate |].
  intros E. injection E as <-. auto.
Qed.

Lemma one_positive :
  has_sign false (of_Z 1) /\ of_Z 1 <> S754_zero false.
Proof. split; [reflexivity | discriminate]. Qed.

(** [quantity + 1] of a quantity that is not negative is a number, and
    is not negative. *)
Lemma plus_one_not_negative (q : sqlnum) :
  is_negative q = false ->
  forall q', plus_one q = Some q' -> is_negative q' = false.
Proof.
  intros H q' E. destruct one_positive as [P1 P2].
  destruct q as [z | f]; unfold plus_one, sql_add in E.
  - apply is_negative_int in H.
    destruct (in_int64 (z + 1)).
    + injection E as <-. apply is_negative_int. lia.
    + apply real_result_some in E as [-> _].
      apply not_below_zero_not_negative, has_sign_not_below_zero.
      apply add_positive; auto.
      apply has_sign_not_below_zero.
      replace false with (z <? 0) by (apply Z.ltb_ge; lia).
      apply of_Z_sign.
  - cbn [real_of] in E.
    destruct (is_nan f) eqn:N.
    + destruct f; try discriminate N. discriminate E.
    + apply real_result_some in E as [-> _].
      apply not_below_zero_not_negative, has_sign_not_below_zero.
      apply add_positive; auto.
      apply not_negative_not_below_zero; auto.
Qed.

(** [MAX(quantity - 1, 0)] is never negative, whatever the quantity. *)
Lemma minus_one_floor_not_negative (q q' : sqlnum) :
  minus_one_floor q = Some q' -> is_negative q' = false.
Proof.
  unfold minus_one_floor, sql_max.
  destruct (sql_sub q (SqlInt 1)) as [x |]; [| discriminate].
  destruct (sql_lt x (SqlInt 0)) eqn:L; intros E; injection E as <-.
  - reflexivity.
  - exact L.
Qed.

(** On 64-bit integers the two expressions are [q + 1] and
    [max (q - 1) 0]. *)
Lemma plus_one_int (z : Z) :
  min_int64 <= z < max_int64 -> plus_one (SqlInt z) = Some (SqlInt (z + 1)).
Proof.
  intros H. unfold plus_one, sql_add, in_int64.
  replace ((min_int64 <=? z + 1) && (z + 1 <=? max_int64)) with true;
    [reflexivity |].
  symmetry. apply andb_true_iff. split; apply Z.leb_le; lia.
Qed.

Lemma minus_one_floor_int (z : Z) :
  min_int64 < z <= max_int64 ->
  minus_one_floor (SqlInt z) = Some (SqlInt (Z.max (z - 1) 0)).
Proof.
  intros H. unfold minus_one_floor, sql_sub, in_int64.
  replace ((min_int64 <=? z - 1) && (z - 1 <=? max_int64)) with true
    by (symmetry; apply andb_true_iff; split; apply Z.leb_le; lia).
  unfold sql_max, sql_lt.
  destruct (z - 1 <? 0) eqn:L.
  - apply Z.ltb_lt in L. f_equal. f_equal. lia.
  - apply Z.ltb_ge in L. f_equal. f_equal. lia.
Qed.

End SqliteFacts.

(* ===================================================================== *)
(** ** Facts about the statements and the handlers *)
(* ===================================================================== *)

Module ServerFacts.
Import Sqlite SqliteFacts Server.

(** *** UPDATE and DELETE on the rows *)

Lemma update_rows_no_match (e : sqlnum -> option sqlnum) (param : string)
    (ps : list product) :
  (forall p, In p ps -> matches param p = false) ->
  update_rows e param ps = Some ps.
Proof.
  induction ps as [| p rest IH]; intros H; simpl; [reflexivity |].
  rewrite (H p) by (left; reflexivity).
  rewrite IH by (intros q Hq; apply H; right; exact Hq).
  reflexivity.
Qed.

Lemma filter_no_match (param : string) (ps : list product) :
  (forall p, In p ps -> matches param p = false) ->
  filter (fun p => negb (matches param p)) ps = ps.
Proof.
  induction ps as [| p rest IH]; intros H; simpl; [reflexivity |].
  rewrite (H p) by (left; reflexivity). simpl.
  rewrite IH by (intros q Hq; apply H; right; exact Hq).
  reflexivity.
Qed.

(** An UPDATE whose expression keeps quantities from being negative keeps
    the table free of negative quantities. *)
Lemma update_rows_not_negative (e : sqlnum -> option sqlnum) (param : string) :
  (forall q q', is_negative q = false -> e q = Some q' ->
                is_negative q' = false) ->
  forall ps ps',
    Forall (fun p => is_negative (product_quantity p) = false) ps ->
    update_rows e param ps = Some ps' ->
    Forall (fun p => is_negative (product_quantity p) = false) ps'.
Proof.
  intros He. induction ps as [| p rest IH]; intros ps' H E; simpl in E.
  - injection E as <-. constructor.
  - inversion H as [| ? ? Hp Hrest]; subst.
    destruct (if matches param p then set_quantity e p else Some p)
      as [p' |] eqn:E1; [| discriminate].
    destruct (update_rows e param rest) as [rest' |]; [| discriminate].
    injection E as <-. constructor; [| apply IH; auto].
    destruct (matches param p).
    + unfold set_quantity in E1.
      destruct (e (product_quantity p)) as [q |] eqn:E2; [| discriminate].
      injection E1 as <-. simpl.
      apply integer_affinity_not_negative. eapply He; eauto.
    + injection E1 as <-. exact Hp.
Qed.

(** The row with id [id] after an UPDATE addressed to it. *)
Lemma update_rows_find (e : sqlnum -> option sqlnum) (param : string)
    (id : Z) :
  rowid_of_text param = Some id ->
  forall ps ps',
    update_rows e param ps = Some ps' ->
    find (fun p => product_id p =? id) ps' =
      match find (fun p => product_id p =? id) ps with
      | Some p => set_quantity e p
      | None => None
      end.
Proof.
  intros Hid. induction ps as [| p rest IH]; intros ps' E; simpl in E.
  - injection E as <-. reflexivity.
  - unfold matches in E. rewrite Hid in E. rewrite Z.eqb_sym in E.
    destruct (update_rows e param rest) as [rest' |] eqn:Er.
    + simpl. destruct (product_id p =? id) eqn:M.
      * destruct (set_quantity e p) as [p' |] eqn:Es; [| discriminate].
        injection E as <-. simpl.
        unfold set_quantity in Es.
        destruct (e (product_quantity p)); [| discriminate].
        injection Es as <-. simpl. rewrite M. reflexivity.
      * injection E as <-. simpl. rewrite M. apply IH. reflexivity.
    + destruct (if product_id p =? id then set_quantity e p else Some p);
        discriminate.
Qed.

Section Handlers.
Variable ACCESS_TOKEN : option string.
Variable bcrypt_hash : string -> N -> string.
Variable bcrypt_compare : string -> string -> bool.

Let handle := handle ACCESS_TOKEN bcrypt_hash bcrypt_compare.

(** What the two UPDATE routes and the DELETE route do. *)
Lemma handle_update (e : sqlnum -> option sqlnum) (c : call)
    (id : string) (w : world) :
  respond (requireAuth (run c (update_quantity e id) ;;;
                        ret (Redirect "/inventory"))) w =
  match s_user (sess w) with
  | None => (Redirect "/login", w)
  | Some _ =>
      match update_quantity e id (db w) with
      | inr d => (Redirect "/inventory", with_db d (called c w))
      | inl err => (Uncaught err, called c w)
      end
  end.
Proof.
  unfold respond, requireAuth, bind, get_session, run, record, bind, ret.
  destruct (s_user (sess w)); [| reflexivity].
  simpl. destruct (update_quantity e id (db w)); reflexivity.
Qed.

Lemma handle_incr (id : string) (w : world) :
  handle (PostIncr id) w =
  match s_user (sess w) with
  | None => (Redirect "/login", w)
  | Some _ =>
      match update_quantity plus_one id (db w) with
      | inr d => (Redirect "/inventory", with_db d (called (UpdateIncr id) w))
      | inl err => (Uncaught err, called (UpdateIncr id) w)
      end
  end.
Proof. exact (handle_update plus_one (UpdateIncr id) id w). Qed.

Lemma handle_decr (id : string) (w : world) :
  handle (PostDecr id) w =
  match s_user (sess w) with
  | None => (Redirect "/login", w)
  | Some _ =>
      match update_quantity minus_one_floor id (db w) with
      | inr d => (Redirect "/inventory", with_db d (called (UpdateDecr id) w))
      | inl err => (Uncaught err, called (UpdateDecr id) w)
      end
  end.
Proof. exact (handle_update minus_one_floor (UpdateDecr id) id w). Qed.

Lemma handle_delete (id : string) (w : world) :
  handle (PostDelete id) w =
  match s_user (sess w) with
  | None => (Redirect "/login", w)
  | Some _ => (Redirect "/inventory",
               with_db (delete_product id (db w))
                       (called (DeleteProduct id) w))
  end.
Proof.
  unfold handle, Server.handle, handler, post_delete, respond, requireAuth,
    bind, get_session, run, record, bind, ret.
  destruct (s_user (sess w)); reflexivity.
Qed.

Lemma update_quantity_not_negative (e : sqlnum -> option sqlnum)
    (param : string) (d d' : database) :
  (forall q q', is_negative q = false -> e q = Some q' ->
                is_negative q' = false) ->
  no_negative d -> update_quantity e param d = inr d' -> no_negative d'.
Proof.
  intros He H E. unfold update_quantity in E.
  destruct (update_rows e param (products d)) as [ps |] eqn:U;
    [| discriminate].
  injection E as <-. unfold no_negative. simpl.
  eapply update_rows_not_negative; eauto.
Qed.

Lemma incr_not_negative (id : string) (w : world) :
  no_negative (db w) -> no_negative (db (snd (handle (PostIncr id) w))).
Proof.
  intros H. rewrite handle_incr.
  destruct (s_user (sess w)); [| exact H].
  destruct (update_quantity plus_one id (db w)) as [err | d] eqn:E;
    [exact H |].
  simpl. eapply update_quantity_not_negative; eauto.
  intros q q' Hq Eq. eapply plus_one_not_negative; eauto.
Qed.

Lemma decr_not_negative (id : string) (w : world) :
  no_negative (db w) -> no_negative (db (snd (handle (PostDecr id) w))).
Proof.
  intros H. rewrite handle_decr.
  destruct (s_user (sess w)); [| exact H].
  destruct (update_quantity minus_one_floor id (db w)) as [err | d] eqn:E;
    [exact H |].
  simpl. eapply update_quantity_not_negative; eauto.
  intros q q' _ Eq. eapply minus_one_floor_not_negative; eauto.
Qed.

End Handlers.

End ServerFacts.

(* ===================================================================== *)
(** ** Ids written in digits *)
(* ===================================================================== *)

(** The text of an id that is made of digits is read as the integer the
    digits write. *)
Module IdText.
Import JsString JsNumber Sqlite Observe.

Ltac by_code_unit c :=
  destruct c as [[] [] [] [] [] [] [] []]; try discriminate; reflexivity.

Lemma digit_not_space (c : ascii) : is_digit c = true -> is_space c = false.
Proof. by_code_unit c. Qed.

Lemma digit_of_digit (c : ascii) :
  is_digit c = true -> digit_of 10 c = Some (code c - 48)%N.
Proof. by_code_unit c. Qed.

Lemma digit_no_sign (c : ascii) (r : string) :
  is_digit c = true -> strip_sign (String c r) = (false, String c r).
Proof. by_code_unit c. Qed.

Lemma digit_at_most_nine (c : ascii) :
  is_digit c = true -> (code c - 48 <=? 9)%N = true.
Proof. by_code_unit c. Qed.

Lemma strip_end_no_space (s : string) :
  all_digits s = true -> strip_end is_space s = s.
Proof.
  induction s as [| c r IH]; simpl; [reflexivity |].
  intros H. apply andb_true_iff in H as [Hc Hr].
  rewrite (IH Hr), (digit_not_space c Hc).
  destruct r; reflexivity.
Qed.

Lemma strip_no_space (s : string) :
  all_digits s = true -> strip is_space s = s.
Proof.
  intros H. unfold strip.
  replace (strip_start is_space s) with s;
    [apply strip_end_no_space; exact H |].
  destruct s as [| c r]; [reflexivity |].
  simpl in *. apply andb_true_iff in H as [Hc _].
  rewrite (digit_not_space c Hc). reflexivity.
Qed.

Lemma span_digits_all (s : string) (acc : N) (count : Z) :
  all_digits s = true ->
  span_digits 10 s acc count
  = (digits_value s acc, count + Z.of_nat (String.length s), EmptyString).
Proof.
  revert acc count. induction s as [| c r IH]; intros acc count H.
  - simpl. do 2 f_equal. lia.
  - simpl in H. apply andb_true_iff in H as [Hc Hr].
    cbn [span_digits digits_value String.length].
    rewrite (digit_of_digit c Hc), (IH _ _ Hr). do 2 f_equal. lia.
Qed.

(** [n] digits write a number below [10 ^ n]. *)
Lemma digits_value_bound (s : string) (acc : N) :
  all_digits s = true ->
  Z.of_N (digits_value s acc)
  < (Z.of_N acc + 1) * 10 ^ Z.of_nat (String.length s).
Proof.
  revert acc. induction s as [| c r IH]; intros acc H.
  - simpl. lia.
  - simpl in H. apply andb_true_iff in H as [Hc Hr].
    cbn [digits_value String.length].
    pose proof (IH (acc * 10 + (code c - 48))%N Hr) as B.
    pose proof (digit_at_most_nine c Hc) as D. apply N.leb_le in D.
    rewrite Nat2Z.inj_succ, Z.pow_succ_r by lia.
    assert (P : 0 < 10 ^ Z.of_nat (String.length r))
      by (apply Z.pow_pos_nonneg; lia).
    nia.
Qed.

Lemma id_number_bounds (s : string) :
  id_text s = true -> 0 <= id_number s < 10 ^ 18.
Proof.
  unfold id_text, id_number. intros H.
  apply andb_true_iff in H as [H L]. apply andb_true_iff in H as [D _].
  apply Z.leb_le in L.
  pose proof (digits_value_bound s 0%N D) as B.
  assert (M : 10 ^ Z.of_nat (String.length s) <= 10 ^ 18)
    by (apply Z.pow_le_mono_r; lia).
  split; [lia |]. simpl Z.of_N in B. lia.
Qed.

(** A text of at most eighteen digits addresses the row whose id the
    digits write. *)
Lemma rowid_of_id_text (s : string) :
  id_text s = true -> rowid_of_text s = Some (id_number s).
Proof.
  intros H. pose proof (id_number_bounds s H) as B.
  unfold id_text in H.
  apply andb_true_iff in H as [H _]. apply andb_true_iff in H as [D P].
  apply Z.ltb_lt in P.
  unfold rowid_of_text. rewrite (strip_no_space s D).
  destruct s as [| c r]; [simpl in P; lia |].
  pose proof D as D'. simpl in D'. apply andb_true_iff in D' as [Hc _].
  rewrite (digit_no_sign c r Hc), (span_digits_all _ 0%N 0 D).
  fold (id_number (String c r)).
  replace (0 <? 0 + Z.of_nat (String.length (String c r))) with true
    by (symmetry; apply Z.ltb_lt; lia).
  replace (in_int64 (id_number (String c r))) with true; [reflexivity |].
  symmetry. unfold in_int64, min_int64, max_int64.
  apply andb_true_iff. split; apply Z.leb_le; lia.
Qed.

(** The rows an id written in digits matches are the rows with that
    id. *)
Lemma matches_id_text (s : string) (p : product) :
  id_text s = true -> matches s p = (id_number s =? product_id p).
Proof.
  intros H. unfold matches. rewrite (rowid_of_id_text s H). reflexivity.
Qed.

End IdText.

(* ===================================================================== *)
(** ** The inventory ledger *)
(* ===================================================================== *)

Module Ledger.
Import Sqlite SqliteFacts Server ServerFacts Observe IdText.

Lemma update_rows_fixed (e : sqlnum -> option sqlnum) (param : string)
    (ps : list product) :
  (forall p, In p ps -> matches param p = true -> set_quantity e p = Some p) ->
  update_rows e param ps = Some ps.
Proof.
  induction ps as [| p rest IH]; intros H; simpl; [reflexivity |].
  rewrite IH by (intros q Hq; apply H; right; exact Hq).
  destruct (matches param p) eqn:M; [| reflexivity].
  rewrite (H p) by (auto; left; reflexivity). reflexivity.
Qed.

Lemma with_products_same (d : database) :
  with_products (products d) (products_seq d) d = d.
Proof. destruct d; reflexivity. Qed.

Lemma set_quantity_zero (p : product) :
  product_quantity p = SqlInt 0 -> set_quantity minus_one_floor p = Some p.
Proof. destruct p as [i n q]. simpl. intros ->. reflexivity. Qed.

Lemma serve_not_negative (tok : option string) (bh : string -> N -> string)
    (bc : string -> string -> bool) (rs : list request) :
  Forall is_incr_or_decr rs ->
  forall w, no_negative (db w) -> no_negative (db (serve tok bh bc rs w)).
Proof.
  induction 1 as [| r rest Hr _ IH]; intros w H; simpl; [exact H |].
  apply IH. destruct r; try contradiction.
  - apply incr_not_negative; exact H.
  - apply decr_not_negative; exact H.
Qed.

(** C1, amended. Increments and decrements never make a quantity
    negative when none is negative to begin with: when no stored quantity
    is negative, none is after any sequence of increment and decrement
    requests, whatever ids they name and whether or not the browser is
    logged in.  A decrement addressed, by an id written in digits, to a
    product whose quantity is 0 leaves the table as it is and is answered
    by a redirect, not by an error.  The quantity a decrement stores is
    not negative whatever the quantity was before. *)
Theorem quantity_never_negative (tok : option string)
    (bh : string -> N -> string) (bc : string -> string -> bool) :
  (forall rs w,
      Forall is_incr_or_decr rs ->
      no_negative (db w) ->
      no_negative (db (serve tok bh bc rs w)))
  /\
  (forall id w,
      id_text id = true ->
      (forall p, In p (products (db w)) -> product_id p = id_number id ->
                 product_quantity p = SqlInt 0) ->
      db (snd (handle tok bh bc (PostDecr id) w)) = db w
      /\ exists location,
           fst (handle tok bh bc (PostDecr id) w) = Redirect location)
  /\
  (forall p p',
      set_quantity minus_one_floor p = Some p' ->
      is_negative (product_quantity p') = false).
Proof.
  split; [| split].
  - intros rs w Hrs H. apply serve_not_negative; assumption.
  - intros id w T H. rewrite handle_decr.
    destruct (s_user (sess w)); [| simpl; split; eauto].
    unfold update_quantity.
    rewrite update_rows_fixed.
    + rewrite with_products_same. simpl. split; eauto.
    + intros p Hp M. rewrite (matches_id_text id p T) in M.
      apply Z.eqb_eq in M. apply set_quantity_zero. auto.
  - intros p p' E. unfold set_quantity in E.
    destruct (minus_one_floor (product_quantity p)) as [q |] eqn:F;
      [| discriminate].
    injection E as <-. simpl.
    apply integer_affinity_not_negative.
    eapply minus_one_floor_not_negative; eauto.
Qed.

(** The seeded table has no negative quantity, and twelve decrements of
    the first product followed by an increment leave none.  After the
    twelve decrements the first product is at 0, and one more decrement
    changes nothing. *)
Lemma quantity_never_negative_witness :
  let at_zero := Example.replay (repeat (PostDecr "1") 12) Example.member in
  no_negative (db Example.member)
  /\ no_negative
       (db (Example.replay (repeat (PostDecr "1") 12 ++ [PostIncr "1"])
                          Example.member))
  /\ quantity_of 1 (db at_zero) = Some (SqlInt 0)
  /\ db (snd (Example.answer (PostDecr "1") at_zero)) = db at_zero.
Proof.
  cbv zeta.
  assert (H : no_negative (db Example.member)).
  { repeat constructor. }
  split; [exact H | split; [| split; [reflexivity |]]].
  - apply (proj1 (quantity_never_negative Example.token Example.bcrypt_hash
                    Example.bcrypt_compare)); [| exact H].
    repeat constructor.
  - apply (proj1 (proj2 (quantity_never_negative Example.token
                           Example.bcrypt_hash Example.bcrypt_compare))
             "1" (Example.replay (repeat (PostDecr "1") 12) Example.member)).
    + reflexivity.
    + intros p Hp E. vm_compute in Hp.
      destruct Hp as [<- | [<- | [<- | []]]];
        [reflexivity | discriminate E | discriminate E].
Defined.

(** A product added at -5 and incremented once is at -4: a sequence of
    increments and decrements, applied to a product whose quantity is
    negative, can leave it negative. *)
Lemma increment_of_negative_stays_negative :
  let w := Example.replay
             [PostAdd [("name", Str "Porto"); ("quantity", Str "-5")]]
             Example.member in
  let w1 := Example.replay [PostIncr "4"] w in
  Forall is_incr_or_decr [PostIncr "4"]
  /\ quantity_of 4 (db w) = Some (SqlInt (-5))
  /\ quantity_of 4 (db w1) = Some (SqlInt (-4))
  /\ is_negative (SqlInt (-4)) = true
  /\ ~ no_negative (db w1).
Proof.
  cbv zeta. split; [repeat constructor |].
  split; [reflexivity | split; [reflexivity | split; [reflexivity |]]].
  intros H. unfold no_negative in H. rewrite Forall_forall in H.
  specialize (H (mk_product 4 "Porto" (SqlInt (-4)))).
  assert (F : is_negative (SqlInt (-4)) = false).
  { apply H. vm_compute. right. right. right. left. reflexivity. }
  discriminate F.
Qed.


(** *** Increment, then decrement *)

Lemma incr_decr_rows (param : string) (ps : list product) :
  (forall p, In p ps -> matches param p = true ->
             exists q, product_quantity p = SqlInt q /\ 0 <= q < max_int64) ->
  exists ps1,
    update_rows plus_one param ps = Some ps1
    /\ update_rows minus_one_floor param ps1 = Some ps.
Proof.
  induction ps as [| p rest IH]; intros H.
  - exists []. split; reflexivity.
  - destruct IH as [rest1 [E1 E2]];
      [intros q Hq; apply H; right; exact Hq |].
    simpl. rewrite E1.
    destruct (matches param p) eqn:M.
    + destruct (H p (or_introl eq_refl) M) as [q [Hq Hr]].
      destruct p as [i n q0]. simpl in Hq. subst q0.
      unfold set_quantity. simpl product_quantity.
      rewrite plus_one_int by (unfold min_int64; lia).
      eexists. split; [reflexivity |].
      simpl. unfold matches in *. simpl in *. rewrite M, E2.
      unfold set_quantity. simpl product_quantity.
      rewrite minus_one_floor_int by (unfold min_int64, max_int64 in *; lia).
      simpl. repeat f_equal. lia.
    + eexists. split; [reflexivity |].
      simpl. rewrite M, E2. reflexivity.
Qed.

Lemma find_by_id_unique (id : Z) (ps : list product) (p p' : product) :
  NoDup (map product_id ps) ->
  find (fun r => product_id r =? id) ps = Some p ->
  In p' ps -> product_id p' = id -> p' = p.
Proof.
  induction ps as [| r rest IH]; simpl; intros N F I E; [contradiction |].
  inversion N as [| ? ? Hnotin Hrest]; subst.
  destruct (product_id r =? product_id p') eqn:M.
  - injection F as <-. apply Z.eqb_eq in M.
    destruct I as [-> | I]; [reflexivity |].
    exfalso. apply Hnotin. rewrite M. apply in_map. exact I.
  - destruct I as [-> | I].
    + rewrite Z.eqb_refl in M. discriminate.
    + apply IH; auto.
Qed.

Lemma matches_rowid (param : string) (id : Z) (p : product) :
  rowid_of_text param = Some id ->
  matches param p = (id =? product_id p).
Proof. intros H. unfold matches. rewrite H. reflexivity. Qed.

(** C8, amended. For a logged-in browser and a product whose quantity is
    an integer q with 0 <= q < 2^63 - 1, an increment addressed to the
    product, by its id written in digits, makes the quantity q + 1 and a
    decrement after it brings it back to q; the table is then what it
    was. *)
Theorem incr_then_decr_restores (tok : option string)
    (bh : string -> N -> string) (bc : string -> string -> bool)
    (w : world) (param : string) (q : Z) :
  authenticated w = true ->
  primary_key (db w) ->
  id_text param = true ->
  quantity_of (id_number param) (db w) = Some (SqlInt q) ->
  0 <= q < max_int64 ->
  let w1 := snd (handle tok bh bc (PostIncr param) w) in
  let w2 := snd (handle tok bh bc (PostDecr param) w1) in
  quantity_of (id_number param) (db w1) = Some (SqlInt (q + 1))
  /\ quantity_of (id_number param) (db w2) = Some (SqlInt q)
  /\ db w2 = db w.
Proof.
  intros A [K _] T Q Hq w1 w2. subst w1 w2.
  pose proof (rowid_of_id_text param T) as R.
  generalize dependent (id_number param). intros id Q R.
  unfold authenticated in A.
  unfold quantity_of, product_by_id in Q.
  destruct (find (fun p => product_id p =? id) (products (db w)))
    as [p |] eqn:F; [| discriminate].
  injection Q as Q.
  destruct (incr_decr_rows param (products (db w))) as [ps1 [E1 E2]].
  { intros p' I M. rewrite (matches_rowid _ _ _ R) in M.
    apply Z.eqb_eq in M.
    rewrite (find_by_id_unique id _ p p' K F I (eq_sym M)). eauto. }
  rewrite handle_incr.
  destruct (s_user (sess w)) as [u |] eqn:U; [| discriminate].
  unfold update_quantity. rewrite E1.
  rewrite handle_decr. simpl. rewrite U.
  unfold update_quantity. simpl. rewrite E2. simpl.
  split; [| split].
  - unfold quantity_of, product_by_id. simpl.
    rewrite (update_rows_find plus_one param id R _ _ E1), F.
    unfold set_quantity. rewrite Q.
    rewrite plus_one_int by (unfold min_int64; lia). reflexivity.
  - unfold quantity_of, product_by_id. simpl. rewrite F. simpl.
    rewrite Q. reflexivity.
  - destruct (db w); reflexivity.
Qed.

(** The first seeded product, at quantity 12. *)
Lemma incr_then_decr_restores_witness :
  quantity_of 1 (db (snd (Example.answer (PostIncr "1") Example.member)))
    = Some (SqlInt 13)
  /\ quantity_of 1
       (db (snd (Example.answer (PostDecr "1")
                   (snd (Example.answer (PostIncr "1") Example.member)))))
     = Some (SqlInt 12)
  /\ db (snd (Example.answer (PostDecr "1")
                (snd (Example.answer (PostIncr "1") Example.member))))
     = db Example.member.
Proof.
  apply (incr_then_decr_restores Example.token Example.bcrypt_hash
           Example.bcrypt_compare Example.member "1" 12).
  - reflexivity.
  - split; repeat constructor; simpl; intuition discriminate.
  - reflexivity.
  - reflexivity.
  - unfold max_int64. lia.
Defined.

(** At the largest 64-bit integer the increment leaves the integers: the
    quantity becomes the REAL 2^63, and the decrement gives 2^63 again.
    The quantity is reached by adding a product at 2^63 - 1024 and
    incrementing it 1023 times. *)
Lemma incr_then_decr_at_max_int64 :
  let w := Example.replay
             (PostAdd [("name", Str "Porto");
                       ("quantity", Str "9223372036854774784")]
              :: repeat (PostIncr "4") 1023)
             Example.member in
  let w1 := snd (Example.answer (PostIncr "4") w) in
  let w2 := snd (Example.answer (PostDecr "4") w1) in
  0 <= max_int64
  /\ quantity_of 4 (db w) = Some (SqlInt max_int64)
  /\ quantity_of 4 (db w1) = Some (SqlReal (Double.of_Z (2 ^ 63)))
  /\ quantity_of 4 (db w2) = Some (SqlReal (Double.of_Z (2 ^ 63)))
  /\ quantity_of 4 (db w2) <> quantity_of 4 (db w).
Proof.
  cbv zeta. repeat split; try (vm_compute; congruence).
Qed.

(** *** An id that names no product *)

(** C2, amended. For every id, written in digits, that no row of
    [products] has, the increment, the decrement and the delete all leave
    the database as it is and are answered like any other request of their
    route: by the redirect to the inventory for a logged-in browser, by
    the redirect to the login page otherwise.  None of them reports a
    missing product. *)
Theorem absent_id_is_noop (tok : option string)
    (bh : string -> N -> string) (bc : string -> string -> bool)
    (param : string) (w : world) (r : request) :
  id_text param = true ->
  (forall p, In p (products (db w)) -> product_id p <> id_number param) ->
  r = PostIncr param \/ r = PostDecr param \/ r = PostDelete param ->
  db (snd (handle tok bh bc r w)) = db w
  /\ fst (handle tok bh bc r w) =
       Redirect (if authenticated w then "/inventory" else "/login").
Proof.
  intros T N.
  assert (H : forall p, In p (products (db w)) -> matches param p = false).
  { intros p Hp. rewrite (matches_id_text param p T).
    apply Z.eqb_neq. intros E. apply (N p Hp). symmetry. exact E. }
  intros [-> | [-> | ->]]; unfold authenticated;
    [rewrite handle_incr | rewrite handle_decr | rewrite handle_delete];
    destruct (s_user (sess w)); simpl; auto;
    unfold update_quantity, delete_product;
    rewrite ?update_rows_no_match, ?filter_no_match by exact H;
    rewrite with_products_same; auto.
Qed.

(** No seeded product has id 99. *)
Lemma absent_id_is_noop_witness :
  db (snd (Example.answer (PostDecr "99") Example.member))
    = db Example.member
  /\ fst (Example.answer (PostDecr "99") Example.member)
     = Redirect "/inventory".
Proof.
  apply (absent_id_is_noop Example.token Example.bcrypt_hash
           Example.bcrypt_compare "99" Example.member (PostDecr "99")).
  - reflexivity.
  - intros p Hp. simpl in Hp.
    destruct Hp as [<- | [<- | [<- | []]]]; discriminate.
  - right. left. reflexivity.
Defined.

(** An increment and a decrement addressed to id 99, which no product has,
    are answered exactly like those addressed to the existing id 1, and
    change nothing. *)
Lemma absent_id_reports_nothing :
  id_text "99" = true
  /\ (forall p, In p (products (db Example.member)) ->
                product_id p <> id_number "99")
  /\ fst (Example.answer (PostIncr "99") Example.member)
     = fst (Example.answer (PostIncr "1") Example.member)
  /\ fst (Example.answer (PostDecr "99") Example.member)
     = fst (Example.answer (PostDecr "1") Example.member)
  /\ fst (Example.answer (PostIncr "99") Example.member)
     = Redirect "/inventory"
  /\ db (snd (Example.answer (PostIncr "99") Example.member))
     = db Example.member
  /\ db (snd (Example.answer (PostDecr "99") Example.member))
     = db Example.member.
Proof.
  split; [reflexivity | split].
  - intros p Hp. simpl in Hp.
    destruct Hp as [<- | [<- | [<- | []]]]; discriminate.
  - repeat split; reflexivity.
Qed.

(** *** Adding a product *)

Lemma handle_add (tok : option string) (bh : string -> N -> string)
    (bc : string -> string -> bool) (b : body) (w : world) :
  handle tok bh bc (PostAdd b) w =
  match s_user (sess w) with
  | None => (Redirect "/login", w)
  | Some _ =>
      match string_field (field b "name") with
      | None => (Uncaught TypeError, w)
      | Some name =>
          let quantity := bind_number (quantity_number (field b "quantity")) in
          let c := InsertProduct (JsString.trim name) quantity in
          match insert_product (JsString.trim name) quantity (db w) with
          | inr d => (Redirect "/inventory", with_db d (called c w))
          | inl e => (Uncaught e, called c w)
          end
      end
  end.
Proof.
  unfold handle, handler, post_add, respond, requireAuth, bind, get_session,
    trim_field, run, record, bind, ret, throw.
  destruct (s_user (sess w)); [| reflexivity].
  destruct (string_field (field b "name")); [| reflexivity].
  simpl. destruct (insert_product _ _ (db w)); reflexivity.
Qed.




(** C5, amended. For every add by a logged-in browser whose name is empty
    after trimming, the name is not checked: when the quantity is a number
    the product is stored under the empty name and the answer is the
    redirect to the inventory, as for any other name. *)
Theorem add_blank_name (tok : option string)
    (bh : string -> N -> string) (bc : string -> string -> bool)
    (b : body) (w : world) (name : string) (q : sqlnum) :
  authenticated w = true ->
  field b "name" = Some (Str name) ->
  JsString.trim name = "" ->
  bind_number (quantity_number (field b "quantity")) = Some q ->
  fst (handle tok bh bc (PostAdd b) w) = Redirect "/inventory"
  /\ db (snd (handle tok bh bc (PostAdd b) w)) = appended "" q (db w).
Proof.
  intros A Hn Ht Hq. unfold authenticated in A.
  rewrite handle_add, Hn. cbn [string_field as_string]. rewrite Ht, Hq.
  destruct (s_user (sess w)); [| discriminate].
  split; reflexivity.
Qed.

(** A name of three spaces, with quantity 3. *)
Lemma add_blank_name_witness :
  fst (Example.answer (PostAdd [("name", Str "   "); ("quantity", Str "3")])
                      Example.member)
    = Redirect "/inventory"
  /\ db (snd (Example.answer
                 (PostAdd [("name", Str "   "); ("quantity", Str "3")])
                 Example.member))
     = appended "" (SqlReal (JsNumber.Number "3")) (db Example.member).
Proof.
  apply (add_blank_name Example.token Example.bcrypt_hash
           Example.bcrypt_compare [("name", Str "   "); ("quantity", Str "3")]
           Example.member "   " (SqlReal (JsNumber.Number "3")));
    reflexivity.
Defined.

(** A name of three spaces is accepted, and a product with the empty name
    is created. *)
Lemma add_blank_name_creates_product :
  let a := Example.answer (PostAdd [("name", Str "   "); ("quantity", Str "3")])
                          Example.member in
  JsString.trim "   " = ""
  /\ fst a = Redirect "/inventory"
  /\ products (db (snd a))
     = (products (db Example.member) ++ [mk_product 4 "" (SqlInt 3)])%list.
Proof. cbv zeta. repeat split; reflexivity. Qed.

(** *** Seeding *)

Lemma startup_empty (us : list user) (useq seq : Z) :
  startup (mk_database us useq [] seq)
  = inr (mk_database us useq
           [mk_product (seq + 1) "Tinto Reserva" (SqlInt 12);
            mk_product (seq + 2) "Branco Seco" (SqlInt 8);
            mk_product (seq + 3)
              ("Ros" ++ JsString.chr 233 ++ " Suave") (SqlInt 5)]
           (seq + 3)).
Proof.
  unfold startup, seed, insert_product, appended. simpl.
  replace (seq + 1 + 1 + 1) with (seq + 3) by lia.
  replace (seq + 1 + 1) with (seq + 2) by lia.
  reflexivity.
Qed.

Lemma startup_nonempty (us : list user) (useq : Z) (p : product)
    (ps : list product) (seq : Z) :
  startup (mk_database us useq (p :: ps) seq)
  = inr (mk_database us useq (p :: ps) seq).
Proof.
  unfold startup, count_products. cbn [products List.length].
  replace (0 <? Z.of_nat (S (List.length ps))) with true
    by (symmetry; apply Z.ltb_lt; lia).
  reflexivity.
Qed.

(** C9. Started on an empty [products] table, the server inserts three
    products, Tinto Reserva at 12, Branco Seco at 8 and Rose Suave (with an
    acute accent on the e, code unit 233) at 5, under the next three ids,
    and the listing shows them in that order; started on a table that has
    a row, it inserts nothing.  A second start therefore changes
    nothing. *)
Theorem startup_seeds_once :
  (forall us useq seq,
      let rows := [mk_product (seq + 1) "Tinto Reserva" (SqlInt 12);
                   mk_product (seq + 2) "Branco Seco" (SqlInt 8);
                   mk_product (seq + 3)
                     ("Ros" ++ JsString.chr 233 ++ " Suave") (SqlInt 5)] in
      startup (mk_database us useq [] seq)
        = inr (mk_database us useq rows (seq + 3))
      /\ select_products (mk_database us useq rows (seq + 3)) = rows)
  /\ (forall us useq p ps seq,
         startup (mk_database us useq (p :: ps) seq)
           = inr (mk_database us useq (p :: ps) seq))
  /\ (forall d, match startup d with
                | inr d' => startup d' = inr d'
                | inl _ => False
                end).
Proof.
  split; [| split].
  - intros us useq seq rows. split; [apply startup_empty |].
    unfold select_products, rows.
    cbn [fold_right insert_by_id products product_id].
    replace (seq + 2 <? seq + 3) with true by (symmetry; apply Z.ltb_lt; lia).
    cbn [insert_by_id product_id].
    replace (seq + 1 <? seq + 2) with true by (symmetry; apply Z.ltb_lt; lia).
    reflexivity.
  - exact startup_nonempty.
  - intros [us useq [| p ps] seq].
    + rewrite startup_empty. apply startup_nonempty.
    + rewrite startup_nonempty. apply startup_nonempty.
Qed.

End Ledger.

(* ===================================================================== *)
(** ** Registration and login *)
(* ===================================================================== *)

Module Access.
Import Sqlite Server.

Section Handlers.
Variable tok : option string.
Variable bh : string -> N -> string.
Variable bc : string -> string -> bool.

(** The login, case by case.  An email that is an array or an object has
    no [trim]: the handler throws before the lookup.  A password that is
    an array or an object is refused by [bcrypt.compare], which is reached
    only when the lookup found a user. *)
Lemma handle_login (b : body) (w : world) :
  handle tok bh bc (PostLogin b) w =
  if token_rejected tok b then (Send msg_invalid_token, w)
  else
    match as_string (or_empty_field (field b "email")) with
    | None => (Uncaught TypeError, w)
    | Some e =>
        let email := normalize e in
        let w1 := called (SelectUser email) w in
        match select_user email (db w) with
        | None => (Send msg_invalid_credentials, w1)
        | Some u =>
            match as_string (or_empty_field (field b "password")) with
            | None => (Uncaught BcryptError, w1)
            | Some password =>
                let w2 :=
                  called (BcryptCompare password (user_password_hash u)) w1 in
                if bc password (user_password_hash u)
                then (Redirect "/inventory",
                      with_sess
                        (mk_session
                           (Some (mk_session_user (Double.of_Z (user_id u))
                                                  (user_email u)))
                           (s_flash (sess w))) w2)
                else (Send msg_invalid_credentials, w2)
            end
        end
    end.
Proof.
  unfold handle, handler, post_login, token_rejected, respond.
  destruct (falsy tok || negb (strict_eq (field b "accessToken") tok));
    [reflexivity |].
  unfold bind at 1. unfold trim_field. cbn [string_field].
  destruct (as_string (or_empty_field (field b "email"))) as [e |];
    [| reflexivity].
  unfold bind, query, bind, record, normalize, ret. simpl.
  destruct (select_user _ (db w)) as [u |]; [| reflexivity].
  unfold compare.
  destruct (as_string (or_empty_field (field b "password"))) as [p |];
    [| reflexivity].
  unfold bind, record, ret. simpl.
  destruct (bc _ (user_password_hash u)); reflexivity.
Qed.

Lemma handle_register (b : body) (w : world) :
  handle tok bh bc (PostRegister b) w =
  match string_field (field b "password") with
  | None => (Render (RegisterFailed msg_error), w)
  | Some p =>
      let h := bh p (salt w) in
      let w1 := mk_world (db w) (sess w) (salt w + 1)
                         (calls w ++ [BcryptHash p]) in
      match string_field (field b "email") with
      | None => (Render (RegisterFailed msg_error), w1)
      | Some e =>
          let w2 := called (InsertUser (normalize e) h) w1 in
          match select_user (normalize e) (db w) with
          | Some _ => (Render (RegisterFailed msg_duplicate), w2)
          | None =>
              (Redirect "/login",
               mk_world
                 (with_users
                    (users (db w) ++ [mk_user (users_seq (db w) + 1)
                                              (normalize e) h])
                    (users_seq (db w) + 1) (db w))
                 (mk_session (s_user (sess w)) (Some msg_registered))
                 (salt w + 1) (calls w2))
          end
      end
  end.
Proof.
  unfold handle, handler, post_register, respond, try_catch, bind, hash.
  destruct (string_field (field b "password")) as [p |]; [| reflexivity].
  unfold bind, record, trim_field. simpl.
  destruct (string_field (field b "email")) as [e |]; [| reflexivity].
  unfold ret, run, bind, record, insert_user, normalize. simpl.
  destruct (select_user _ (db w)); reflexivity.
Qed.

End Handlers.

Lemma strict_eq_true (a : option value) (b : option string) :
  strict_eq a b = true <-> a = option_map Str b.
Proof.
  destruct a as [[x | l | o] |], b as [y |]; simpl; split; intros H;
    try discriminate; try reflexivity.
  - apply String.eqb_eq in H. congruence.
  - injection H as ->. apply String.eqb_refl.
Qed.

Lemma token_rejected_iff (tok : option string) (b : body) :
  token_rejected tok b = true <->
  falsy tok = true \/ field b "accessToken" <> option_map Str tok.
Proof.
  unfold token_rejected. rewrite orb_true_iff, negb_true_iff.
  split; intros [H | H]; auto; right.
  - intros E. apply strict_eq_true in E. congruence.
  - destruct (strict_eq (field b "accessToken") tok) eqn:E; [| reflexivity].
    apply strict_eq_true in E. contradiction.
Qed.

(** C3. When the configured access token is missing (or empty), or the
    presented token is not the configured one (a string that differs from
    it, an array, an object, or no token at all), the login is answered
    with the invalid-token message and the world is untouched: no
    statement is run on the database, bcrypt is not called and the session
    stays as it was. *)
Theorem login_rejects_bad_token (tok : option string)
    (bh : string -> N -> string) (bc : string -> string -> bool)
    (b : body) (w : world) :
  tok = None \/ falsy tok = true
  \/ field b "accessToken" <> option_map Str tok ->
  handle tok bh bc (PostLogin b) w = (Send msg_invalid_token, w).
Proof.
  intros H. rewrite handle_login.
  replace (token_rejected tok b) with true; [reflexivity |].
  symmetry. apply token_rejected_iff.
  destruct H as [-> | [H | H]]; auto.
Qed.

(** The right password with a wrong token, and any login on a server
    started without a token. *)
Lemma login_rejects_bad_token_witness :
  Example.answer
    (PostLogin [("email", Str "a@x.com"); ("password", Str "pass1");
                ("accessToken", Str "errado")])
    Example.member
  = (Send msg_invalid_token, Example.member)
  /\ handle None Example.bcrypt_hash Example.bcrypt_compare
       (PostLogin Example.credentials) Example.member
     = (Send msg_invalid_token, Example.member).
Proof.
  split.
  - apply (login_rejects_bad_token Example.token Example.bcrypt_hash
             Example.bcrypt_compare).
    right. right. discriminate.
  - apply (login_rejects_bad_token None Example.bcrypt_hash
             Example.bcrypt_compare).
    left. reflexivity.
Defined.

(** C6, amended. With an accepted token and an email and a password
    that are strings (or left out), a login under an email that no user
    has and a login under a known email with a password that bcrypt
    refuses get the same answer, the invalid-credentials message; neither
    changes the session or the database. *)
Theorem login_failures_indistinguishable (tok : option string)
    (bh : string -> N -> string) (bc : string -> string -> bool)
    (unknown known : body) (w : world) (e1 e2 p2 : string) (u : user) :
  token_rejected tok unknown = false ->
  token_rejected tok known = false ->
  as_string (or_empty_field (field unknown "email")) = Some e1 ->
  select_user (normalize e1) (db w) = None ->
  as_string (or_empty_field (field known "email")) = Some e2 ->
  select_user (normalize e2) (db w) = Some u ->
  as_string (or_empty_field (field known "password")) = Some p2 ->
  bc p2 (user_password_hash u) = false ->
  let a := handle tok bh bc (PostLogin unknown) w in
  let c := handle tok bh bc (PostLogin known) w in
  fst a = fst c
  /\ fst a = Send msg_invalid_credentials
  /\ sess (snd a) = sess w /\ sess (snd c) = sess w
  /\ db (snd a) = db w /\ db (snd c) = db w.
Proof.
  intros T1 T2 E1 S1 E2 S2 P2 C a c. subst a c.
  rewrite !handle_login, T1, T2, E1, E2. cbv zeta. rewrite S1, S2, P2, C.
  repeat split; reflexivity.
Qed.

(** An email nobody registered, and the registered one with a wrong
    password. *)
Lemma login_failures_indistinguishable_witness :
  let unknown := [("email", Str "b@x.com"); ("password", Str "pass1");
                  ("accessToken", Str "segredo")] in
  let known := [("email", Str "a@x.com"); ("password", Str "senha");
                ("accessToken", Str "segredo")] in
  let a := Example.answer (PostLogin unknown) Example.visitor_registered in
  let c := Example.answer (PostLogin known) Example.visitor_registered in
  fst a = fst c
  /\ fst a = Send msg_invalid_credentials
  /\ sess (snd a) = sess Example.visitor_registered
  /\ sess (snd c) = sess Example.visitor_registered
  /\ db (snd a) = db Example.visitor_registered
  /\ db (snd c) = db Example.visitor_registered.
Proof.
  apply (login_failures_indistinguishable Example.token Example.bcrypt_hash
           Example.bcrypt_compare _ _ Example.visitor_registered
           "b@x.com" "a@x.com" "senha"
           (mk_user 1 "a@x.com" (Example.bcrypt_hash "pass1" 0)));
    reflexivity.
Defined.

(** A password sent as [password[]=x] is an array.  Under an email nobody
    registered the login is answered with the invalid-credentials message;
    under the registered email the array reaches [bcrypt.compare], which
    rejects it, and the handler throws: the two answers differ, and tell
    whether the email is known. *)
Lemma array_password_tells_known_email :
  let unknown := [("email", Str "b@x.com"); ("password", Arr [Str "x"]);
                  ("accessToken", Str "segredo")] in
  let known := [("email", Str "a@x.com"); ("password", Arr [Str "x"]);
                ("accessToken", Str "segredo")] in
  let a := Example.answer (PostLogin unknown) Example.visitor_registered in
  let c := Example.answer (PostLogin known) Example.visitor_registered in
  token_rejected Example.token unknown = false
  /\ token_rejected Example.token known = false
  /\ select_user (normalize "b@x.com") (db Example.visitor_registered) = None
  /\ select_user (normalize "a@x.com") (db Example.visitor_registered)
     = Some (mk_user 1 "a@x.com" (Example.bcrypt_hash "pass1" 0))
  /\ fst a = Send msg_invalid_credentials
  /\ fst c = Uncaught BcryptError
  /\ fst a <> fst c.
Proof.
  cbv zeta. repeat split; try reflexivity. discriminate.
Qed.

(** *** Registration *)

Lemma select_user_app_new (email h : string) (id us : Z) (d : database) :
  select_user email d = None ->
  select_user email (with_users (users d ++ [mk_user id email h]) us d)
    = Some (mk_user id email h).
Proof.
  unfold select_user. simpl. generalize (users d). intros l.
  induction l as [| u rest IH]; simpl.
  - rewrite String.eqb_refl. reflexivity.
  - destruct (user_email u =? email)%string; [discriminate | exact IH].
Qed.

Lemma count_users_app_new (email h : string) (id us : Z) (d : database) :
  select_user email d = None ->
  count_users email (with_users (users d ++ [mk_user id email h]) us d) = 1%nat.
Proof.
  unfold select_user, count_users. simpl. generalize (users d). intros l.
  induction l as [| u rest IH]; simpl.
  - rewrite String.eqb_refl. reflexivity.
  - destruct (user_email u =? email)%string; [discriminate | exact IH].
Qed.

(** C7. Two registrations whose emails are equal after trimming and
    lower-casing, the first under an email not yet stored: the first is
    answered by the redirect to the login page and stores the user, the
    second is answered with the duplicate-email page and stores nothing;
    afterwards exactly one user has that email. *)
Theorem duplicate_registration_rejected (tok : option string)
    (bh : string -> N -> string) (bc : string -> string -> bool)
    (first second : body) (w : world) (e1 p1 e2 p2 : string) :
  field first "email" = Some (Str e1) ->
  field first "password" = Some (Str p1) ->
  field second "email" = Some (Str e2) ->
  field second "password" = Some (Str p2) ->
  normalize e1 = normalize e2 ->
  select_user (normalize e1) (db w) = None ->
  let a := handle tok bh bc (PostRegister first) w in
  let c := handle tok bh bc (PostRegister second) (snd a) in
  fst a = Redirect "/login"
  /\ fst c = Render (RegisterFailed msg_duplicate)
  /\ users (db (snd c))
     = (users (db w)
        ++ [mk_user (users_seq (db w) + 1) (normalize e1)
                    (bh p1 (salt w))])%list
  /\ count_users (normalize e1) (db (snd c)) = 1%nat.
Proof.
  intros E1 P1 E2 P2 N F a c. subst a c.
  rewrite (handle_register tok bh bc first w), E1, P1.
  cbn [string_field as_string]. cbv zeta. rewrite F.
  cbn [fst snd].
  rewrite handle_register, E2, P2. cbn [string_field as_string].
  cbv zeta. cbn [db]. rewrite <- N.
  rewrite select_user_app_new by exact F.
  cbn [fst snd db called]. repeat split.
  apply count_users_app_new. exact F.
Qed.

(** " A@X.com " after "a@x.com". *)
Lemma duplicate_registration_rejected_witness :
  let again := [("email", Str " A@X.com "); ("password", Str "outra")] in
  let a := Example.answer (PostRegister Example.signup) Example.visitor in
  let c := Example.answer (PostRegister again) (snd a) in
  fst a = Redirect "/login"
  /\ fst c = Render (RegisterFailed msg_duplicate)
  /\ users (db (snd c))
     = (users (db Example.visitor)
        ++ [mk_user 1 "a@x.com" (Example.bcrypt_hash "pass1" 0)])%list
  /\ count_users "a@x.com" (db (snd c)) = 1%nat.
Proof.
  apply (duplicate_registration_rejected Example.token Example.bcrypt_hash
           Example.bcrypt_compare Example.signup
           [("email", Str " A@X.com "); ("password", Str "outra")]
           Example.visitor
           "a@x.com" "pass1" " A@X.com " "outra");
    reflexivity.
Defined.

(** *** Login with a field missing *)

(** C10, amended. When the email or the password field of a login is
    absent and the other one is a string (or absent too), [POST /login]
    answers: it does not throw.  The email looked up is the empty string
    for an absent email and the password compared is the empty string for
    an absent password: with an accepted token the statements and bcrypt
    calls made are the lookup under the normalized email and, when a user
    is found, the comparison of that password.  The login then gets the
    invalid-credentials message, and the session and the database stay as
    they were, provided no stored user has the looked-up email together
    with a hash that bcrypt accepts for the compared password. *)
Theorem login_absent_field (tok : option string)
    (bh : string -> N -> string) (bc : string -> string -> bool)
    (b : body) (w : world) (e p : string) :
  field b "email" = None \/ field b "password" = None ->
  as_string (or_empty_field (field b "email")) = Some e ->
  as_string (or_empty_field (field b "password")) = Some p ->
  let a := handle tok bh bc (PostLogin b) w in
  (forall err, fst a <> Uncaught err)
  /\ (field b "email" = None -> e = "")
  /\ (field b "password" = None -> p = "")
  /\ (token_rejected tok b = false ->
      calls (snd a)
      = (calls w ++ SelectUser (normalize e)
           :: match select_user (normalize e) (db w) with
              | Some u => [BcryptCompare p (user_password_hash u)]
              | None => []
              end)%list
      /\ ((forall u, select_user (normalize e) (db w) = Some u ->
                     bc p (user_password_hash u) = false) ->
          fst a = Send msg_invalid_credentials
          /\ sess (snd a) = sess w
          /\ db (snd a) = db w)).
Proof.
  intros _ E P a. subst a. rewrite handle_login, E. cbv zeta. rewrite P.
  split; [| split; [| split]].
  - intros err. destruct (token_rejected tok b); [discriminate |].
    destruct (select_user _ (db w)) as [u |]; [| discriminate].
    destruct (bc _ (user_password_hash u)); discriminate.
  - intros N. rewrite N in E. injection E as <-. reflexivity.
  - intros N. rewrite N in P. injection P as <-. reflexivity.
  - intros T. rewrite T.
    destruct (select_user _ (db w)) as [u |] eqn:S.
    + split.
      * destruct (bc p (user_password_hash u)); simpl;
          rewrite <- app_assoc; reflexivity.
      * intros H. rewrite (H u eq_refl). repeat split.
    + split; [reflexivity |]. intros _. repeat split.
Qed.

(** A login without an email, and one without a password. *)
Lemma login_absent_field_witness :
  let no_email := [("password", Str "pass1");
                   ("accessToken", Str "segredo")] in
  let no_password := [("email", Str "a@x.com");
                      ("accessToken", Str "segredo")] in
  (fst (Example.answer (PostLogin no_email) Example.visitor_registered)
     = Send msg_invalid_credentials
   /\ sess (snd (Example.answer (PostLogin no_email)
                                Example.visitor_registered))
      = sess Example.visitor_registered
   /\ db (snd (Example.answer (PostLogin no_email)
                              Example.visitor_registered))
      = db Example.visitor_registered)
  /\
  (fst (Example.answer (PostLogin no_password) Example.visitor_registered)
     = Send msg_invalid_credentials
   /\ sess (snd (Example.answer (PostLogin no_password)
                                Example.visitor_registered))
      = sess Example.visitor_registered
   /\ db (snd (Example.answer (PostLogin no_password)
                              Example.visitor_registered))
      = db Example.visitor_registered).
Proof.
  split.
  - apply (proj2 (proj2 (proj2 (proj2
             (login_absent_field Example.token Example.bcrypt_hash
                Example.bcrypt_compare
                [("password", Str "pass1"); ("accessToken", Str "segredo")]
                Example.visitor_registered "" "pass1"
                (or_introl eq_refl) eq_refl eq_refl))) eq_refl)).
    intros u H. discriminate H.
  - apply (proj2 (proj2 (proj2 (proj2
             (login_absent_field Example.token Example.bcrypt_hash
                Example.bcrypt_compare
                [("email", Str "a@x.com"); ("accessToken", Str "segredo")]
                Example.visitor_registered "a@x.com" ""
                (or_intror eq_refl) eq_refl eq_refl))) eq_refl)).
    intros u H. injection H as <-. reflexivity.
Defined.

(** After a registration under an email of two spaces, which is stored as
    the empty email, a login that has no email field and carries that
    user's password is accepted: the session is established.  And a login
    that has no password field and whose email was sent as [email[]=x], an
    array, throws: arrays have no [trim]. *)
Lemma login_with_absent_field_succeeds_or_throws :
  let blank := [("email", Str "  "); ("password", Str "pass1")] in
  let no_email := [("password", Str "pass1");
                   ("accessToken", Str "segredo")] in
  let no_password := [("email", Arr [Str "x"]);
                      ("accessToken", Str "segredo")] in
  let w := snd (Example.answer (PostRegister blank) Example.visitor) in
  let a := Example.answer (PostLogin no_email) w in
  field no_email "email" = None
  /\ users (db w) = [mk_user 1 "" (Example.bcrypt_hash "pass1" 0)]
  /\ fst a = Redirect "/inventory"
  /\ s_user (sess (snd a)) = Some (mk_session_user (Double.of_Z 1) "")
  /\ field no_password "password" = None
  /\ fst (Example.answer (PostLogin no_password) Example.visitor)
     = Uncaught TypeError.
Proof. cbv zeta. repeat split; reflexivity. Qed.

End Access.

(* ===================================================================== *)
(** ** The primary key of [products] *)
(* ===================================================================== *)

(** The list of rows has no key constraint of its own; the statements the
    handlers run keep the ids distinct. *)
Module Keys.
Import Sqlite Server ServerFacts Ledger Access.

Lemma update_rows_ids (e : sqlnum -> option sqlnum) (param : string)
    (ps ps' : list product) :
  update_rows e param ps = Some ps' ->
  map product_id ps' = map product_id ps.
Proof.
  revert ps'. induction ps as [| p rest IH]; intros ps' E; simpl in E.
  - injection E as <-. reflexivity.
  - destruct (if matches param p then set_quantity e p else Some p)
      as [p' |] eqn:E1; [| discriminate].
    destruct (update_rows e param rest) as [rest' |]; [| discriminate].
    injection E as <-. simpl. rewrite (IH rest' eq_refl). f_equal.
    destruct (matches param p).
    + unfold set_quantity in E1.
      destruct (e (product_quantity p)); [| discriminate].
      injection E1 as <-. reflexivity.
    + injection E1 as <-. reflexivity.
Qed.

Lemma ids_bounded (seq : Z) (ps : list product) :
  Forall (fun p => product_id p <= seq) ps <->
  Forall (fun i => i <= seq) (map product_id ps).
Proof. rewrite Forall_map. reflexivity. Qed.

Lemma primary_key_update (e : sqlnum -> option sqlnum) (param : string)
    (d d' : database) :
  primary_key d -> update_quantity e param d = inr d' -> primary_key d'.
Proof.
  intros [N B] E. unfold update_quantity in E.
  destruct (update_rows e param (products d)) as [ps |] eqn:U;
    [| discriminate].
  injection E as <-. unfold primary_key. simpl.
  rewrite ids_bounded, (update_rows_ids _ _ _ _ U), <- ids_bounded. auto.
Qed.

Lemma primary_key_delete (param : string) (d : database) :
  primary_key d -> primary_key (delete_product param d).
Proof.
  intros [N B]. unfold primary_key, delete_product. simpl. split.
  - revert N. generalize (products d). intros l.
    induction l as [| p rest IH]; simpl; intros N; [constructor |].
    inversion N as [| ? ? Hnotin Hrest]; subst.
    destruct (matches param p); simpl; auto.
    constructor; auto.
    intros I. apply Hnotin. apply in_map_iff in I as [q [Eq Hq]].
    apply filter_In in Hq as [Hq _]. rewrite <- Eq. apply in_map. exact Hq.
  - apply Forall_forall. intros p Hp. apply filter_In in Hp as [Hp _].
    rewrite Forall_forall in B. auto.
Qed.

Lemma NoDup_snoc (l : list Z) (x : Z) :
  NoDup l -> ~ In x l -> NoDup (l ++ [x]).
Proof.
  induction l as [| y rest IH]; simpl; intros N I.
  - constructor; [intros [] | constructor].
  - inversion N as [| ? ? Hnotin Hrest]; subst.
    constructor.
    + intros H. apply in_app_or in H as [H | [H | []]]; [auto |].
      apply I. left. symmetry. exact H.
    + apply IH; auto.
Qed.

Lemma primary_key_appended (name : string) (q : sqlnum) (d : database) :
  primary_key d -> primary_key (appended name q d).
Proof.
  intros [N B]. unfold primary_key, appended. simpl. split.
  - rewrite map_app. simpl. apply NoDup_snoc; [exact N |].
    intros I. apply in_map_iff in I as [p [Ep Hp]].
    rewrite Forall_forall in B. specialize (B p Hp). lia.
  - apply Forall_app. split.
    + eapply Forall_impl; [| exact B]. simpl. intros p Hp. lia.
    + constructor; [simpl; lia | constructor].
Qed.

(** Every request leaves the ids of [products] distinct and below the
    counter. *)
Lemma primary_key_preserved (tok : option string)
    (bh : string -> N -> string) (bc : string -> string -> bool)
    (r : request) (w : world) :
  primary_key (db w) -> primary_key (db (snd (handle tok bh bc r w))).
Proof.
  intros K. destruct r.
  - unfold handle, handler, get_root, respond, bind, get_session, ret.
    destruct (s_user (sess w)); exact K.
  - exact K.
  - rewrite handle_register.
    destruct (string_field (field b "password")); [| exact K].
    destruct (string_field (field b "email")); [| exact K].
    cbv zeta. destruct (select_user _ (db w)); exact K.
  - exact K.
  - rewrite handle_login.
    destruct (token_rejected tok b); [exact K |].
    destruct (as_string (or_empty_field (field b "email")));
      [| exact K].
    cbv zeta. destruct (select_user _ (db w)) as [u |]; [| exact K].
    destruct (as_string (or_empty_field (field b "password")));
      [| exact K].
    cbv zeta. destruct (bc _ (user_password_hash u)); exact K.
  - exact K.
  - unfold handle, handler, get_inventory, respond, requireAuth, bind,
      get_session, query, bind, record, ret.
    destruct (s_user (sess w)) eqn:U; [| exact K].
    simpl. rewrite U. exact K.
  - rewrite handle_add.
    destruct (s_user (sess w)); [| exact K].
    destruct (string_field (field b "name")); [| exact K].
    cbv zeta. unfold insert_product.
    destruct (bind_number _); [| exact K].
    simpl. apply primary_key_appended. exact K.
  - rewrite handle_incr.
    destruct (s_user (sess w)); [| exact K].
    destruct (update_quantity plus_one id (db w)) eqn:E; [exact K |].
    simpl. eapply primary_key_update; eauto.
  - rewrite handle_decr.
    destruct (s_user (sess w)); [| exact K].
    destruct (update_quantity minus_one_floor id (db w)) eqn:E; [exact K |].
    simpl. eapply primary_key_update; eauto.
  - rewrite handle_delete.
    destruct (s_user (sess w)); [| exact K].
    simpl. apply primary_key_delete. exact K.
Qed.

(** The seeding keeps it too, and establishes it on a first run. *)
Lemma primary_key_startup (d : database) :
  primary_key d ->
  match startup d with
  | inr d' => primary_key d'
  | inl _ => False
  end.
Proof.
  intros K. destruct d as [us useq [| p ps] seq].
  - rewrite startup_empty.
    split; simpl.
    + repeat constructor; simpl; intuition lia.
    + repeat constructor; simpl; lia.
  - rewrite startup_nonempty. exact K.
Qed.

End Keys.

(* ===================================================================== *)
(** ** A session from start to end *)
(* ===================================================================== *)

Module Scenario.
Import Sqlite Server.

(** Register, log in with a wrong token, log in, list, decrement the first
    product seven times, then five times more. *)
Example register_login_decrement :
  let wrong := [("email", Str "a@x.com"); ("password", Str "pass1");
                ("accessToken", Str "errado")] in
  let w1 := Example.visitor_registered in
  let refused := Example.answer (PostLogin wrong) w1 in
  let w2 := snd (Example.answer (PostLogin Example.credentials) w1) in
  let w3 := Example.replay (repeat (PostDecr "1") 7) w2 in
  let w4 := Example.replay (repeat (PostDecr "1") 5) w3 in
  fst refused = Send msg_invalid_token
  /\ s_user (sess (snd refused)) = None
  /\ s_user (sess w2) = Some (mk_session_user (Double.of_Z 1) "a@x.com")
  /\ (exists email rows,
         fst (Example.answer GetInventory w2)
           = Render (Inventory email rows)
         /\ map row_quantity rows
            = [Double.of_Z 12; Double.of_Z 8; Double.of_Z 5])
  /\ quantity_of 1 (db w3) = Some (SqlInt 5)
  /\ quantity_of 1 (db w4) = Some (SqlInt 0).
Proof.
  cbv zeta. repeat split; try reflexivity.
  eexists. eexists. split; reflexivity.
Qed.

End Scenario.

(* ===================================================================== *)
(** ** Every route, and what a request does to the database *)
(* ===================================================================== *)

Module Routes.
Import Double DoubleFacts Sqlite SqliteFacts Server ServerFacts Ledger Access.
Import Observe.

Section Handlers.
Variable tok : option string.
Variable bh : string -> N -> string.
Variable bc : string -> string -> bool.

Lemma handle_root (w : world) :
  handle tok bh bc GetRoot w =
  (Redirect (if authenticated w then "/inventory" else "/login"), w).
Proof.
  unfold handle, handler, get_root, respond, bind, get_session, ret,
    authenticated.
  destruct (s_user (sess w)); reflexivity.
Qed.

Lemma handle_get_login (w : world) :
  handle tok bh bc GetLogin w =
  (Render (LoginForm (or_empty (s_flash (sess w)))),
   with_sess (mk_session (s_user (sess w)) None) w).
Proof. reflexivity. Qed.

Lemma handle_logout (w : world) :
  handle tok bh bc PostLogout w =
  (Redirect "/login", with_sess empty_session w).
Proof. reflexivity. Qed.

Lemma handle_get_inventory (w : world) :
  handle tok bh bc GetInventory w =
  match s_user (sess w) with
  | None => (Redirect "/login", w)
  | Some u =>
      (Render (Inventory (su_email u) (map js_row (select_products (db w)))),
       called SelectProducts w)
  end.
Proof.
  unfold handle, handler, get_inventory, respond, requireAuth, bind,
    get_session, query, bind, record, ret.
  destruct (s_user (sess w)) eqn:U; [| reflexivity].
  simpl. rewrite U. reflexivity.
Qed.

(** *** The quantity expressions on numbers *)

Lemma has_sign_number (s : bool) (f : double) :
  has_sign s f -> is_nan f = false.
Proof. destruct f; simpl; intros H; try reflexivity; contradiction. Qed.

Lemma add_one_number (f : double) :
  is_nan f = false -> is_nan (add f (of_Z 1)) = false.
Proof.
  destruct f as [s | s | | s m e]; intros H; try discriminate;
    try reflexivity.
  unfold add, SFadd.
  change (of_Z 1) with (S754_finite false 4503599627370496 (-52)).
  cbv iota beta.
  apply (has_sign_number _ _ (binary_normalize_sign _ _)).
Qed.

Lemma sub_one_number (f : double) :
  is_nan f = false -> is_nan (sub f (of_Z 1)) = false.
Proof.
  destruct f as [s | s | | s m e]; intros H; try discriminate;
    try reflexivity.
  unfold sub, SFsub.
  change (of_Z 1) with (S754_finite false 4503599627370496 (-52)).
  cbv iota beta.
  apply (has_sign_number _ _ (binary_normalize_sign _ _)).
Qed.

Lemma of_Z_number (z : Z) : is_nan (of_Z z) = false.
Proof. apply (has_sign_number _ _ (of_Z_sign z)). Qed.

Lemma real_of_number (q : sqlnum) :
  is_number q = true -> is_nan (real_of q) = false.
Proof.
  destruct q as [z | f]; simpl; intros H.
  - apply of_Z_number.
  - apply negb_true_iff. exact H.
Qed.

Lemma real_result_number (f : double) :
  is_nan f = false ->
  real_result f = Some (SqlReal f) /\ is_number (SqlReal f) = true.
Proof. intros H. unfold real_result. simpl. rewrite H. auto. Qed.

Lemma integer_affinity_number (q : sqlnum) :
  is_number q = true -> is_number (integer_affinity q) = true.
Proof.
  destruct q as [z | f]; simpl; auto. intros H.
  destruct (to_Z f); auto.
  destruct ((min_int64 <? z) && (z <? max_int64)); auto.
Qed.

(** On a number, [quantity + 1] is a number. *)
Lemma plus_one_number (q : sqlnum) :
  is_number q = true ->
  exists q', plus_one q = Some q' /\ is_number q' = true.
Proof.
  intros H. pose proof (add_one_number _ (real_of_number q H)) as A.
  destruct (real_result_number _ A) as [R N].
  destruct q as [z | f]; unfold plus_one, sql_add.
  - destruct (in_int64 (z + 1)); [eexists; split; reflexivity |].
    exists (SqlReal (add (of_Z z) (of_Z 1))). auto.
  - exists (SqlReal (add f (of_Z 1))). auto.
Qed.

(** On a number, [MAX(quantity - 1, 0)] is a number. *)
Lemma minus_one_floor_number (q : sqlnum) :
  is_number q = true ->
  exists q', minus_one_floor q = Some q' /\ is_number q' = true.
Proof.
  intros H. pose proof (sub_one_number _ (real_of_number q H)) as A.
  destruct (real_result_number _ A) as [R N].
  assert (S : exists x, sql_sub q (SqlInt 1) = Some x /\ is_number x = true).
  { destruct q as [z | f]; unfold sql_sub.
    - destruct (in_int64 (z - 1)); [eexists; split; reflexivity |].
      exists (SqlReal (sub (of_Z z) (of_Z 1))). auto.
    - exists (SqlReal (sub f (of_Z 1))). auto. }
  destruct S as [x [Ex Nx]]. unfold minus_one_floor. rewrite Ex.
  unfold sql_max. destruct (sql_lt x (SqlInt 0)); eexists; split;
    try reflexivity; auto.
Qed.

(** An UPDATE of a table of numbers succeeds, and leaves a table of
    numbers. *)
Lemma update_rows_numbers (e : sqlnum -> option sqlnum) (param : string) :
  (forall q, is_number q = true ->
             exists q', e q = Some q' /\ is_number q' = true) ->
  forall ps,
    Forall (fun p => is_number (product_quantity p) = true) ps ->
    exists ps',
      update_rows e param ps = Some ps'
      /\ Forall (fun p => is_number (product_quantity p) = true) ps'.
Proof.
  intros He. induction ps as [| p rest IH]; intros H.
  - exists []. split; [reflexivity | constructor].
  - inversion H as [| ? ? Hp Hrest]; subst.
    destruct (IH Hrest) as [rest' [E F]]. simpl. rewrite E.
    destruct (matches param p).
    + destruct (He _ Hp) as [q' [Eq Nq]]. unfold set_quantity. rewrite Eq.
      eexists. split; [reflexivity |].
      constructor; [| exact F]. simpl. apply integer_affinity_number, Nq.
    + exists (p :: rest'). split; [reflexivity | constructor; auto].
Qed.

(** *** One request, as a step of the database *)

Lemma bind_number_is_number (f : double) (q : sqlnum) :
  bind_number f = Some q -> is_number q = true.
Proof.
  intros E. apply real_result_some in E as [-> N]. simpl. rewrite N.
  reflexivity.
Qed.

Lemma handle_db_step (r : request) (w : world) :
  db_step (db w) (db (snd (handle tok bh bc r w))).
Proof.
  destruct r.
  - rewrite handle_root. constructor.
  - constructor.
  - rewrite handle_register.
    destruct (string_field (field b "password")); [| constructor].
    destruct (string_field (field b "email")); [| constructor].
    cbv zeta. destruct (select_user _ (db w)) eqn:S; [constructor |].
    simpl. apply db_registered. exact S.
  - constructor.
  - rewrite handle_login.
    destruct (token_rejected tok b); [constructor |].
    destruct (as_string (or_empty_field (field b "email")));
      [| constructor].
    cbv zeta. destruct (select_user _ (db w)) as [u |]; [| constructor].
    destruct (as_string (or_empty_field (field b "password")));
      [| constructor].
    cbv zeta. destruct (bc _ (user_password_hash u)); constructor.
  - constructor.
  - rewrite handle_get_inventory.
    destruct (s_user (sess w)); constructor.
  - rewrite handle_add.
    destruct (s_user (sess w)); [| constructor].
    destruct (string_field (field b "name")); [| constructor].
    cbv zeta. unfold insert_product.
    destruct (bind_number _) eqn:B; [| constructor].
    simpl. apply db_added. eapply bind_number_is_number; eauto.
  - rewrite handle_incr.
    destruct (s_user (sess w)); [| constructor].
    destruct (update_quantity plus_one id (db w)) eqn:E; [constructor |].
    simpl. eapply db_incremented; eauto.
  - rewrite handle_decr.
    destruct (s_user (sess w)); [| constructor].
    destruct (update_quantity minus_one_floor id (db w)) eqn:E;
      [constructor |].
    simpl. eapply db_decremented; eauto.
  - rewrite handle_delete.
    destruct (s_user (sess w)); [| constructor].
    simpl. apply db_deleted.
Qed.

End Handlers.

End Routes.

(* ===================================================================== *)
(** ** Facts about [trim] and [toLowerCase] *)
(* ===================================================================== *)

Module StringFacts.
Import JsString Server.

Lemma strip_start_length (ws : ascii -> bool) (s : string) :
  (String.length (strip_start ws s) <= String.length s)%nat.
Proof.
  induction s as [| c r IH]; simpl; [lia |].
  destruct (ws c); simpl; lia.
Qed.

Lemma strip_start_idempotent (ws : ascii -> bool) (s : string) :
  strip_start ws (strip_start ws s) = strip_start ws s.
Proof.
  induction s as [| c r IH]; simpl; [reflexivity |].
  destruct (ws c) eqn:W; [exact IH |]. simpl. rewrite W. reflexivity.
Qed.

Lemma strip_end_idempotent (ws : ascii -> bool) (s : string) :
  strip_end ws (strip_end ws s) = strip_end ws s.
Proof.
  induction s as [| c r IH]; simpl; [reflexivity |].
  destruct (strip_end ws r) as [| c' r'] eqn:E.
  - destruct (ws c) eqn:W; simpl; [reflexivity |]. rewrite W. reflexivity.
  - simpl. simpl in IH. rewrite IH. reflexivity.
Qed.

(** Stripping the end leaves a clean start clean. *)
Lemma strip_start_after_end (ws : ascii -> bool) (s : string) :
  strip_start ws s = s ->
  strip_start ws (strip_end ws s) = strip_end ws s.
Proof.
  destruct s as [| c r]; simpl; [reflexivity |].
  destruct (ws c) eqn:W.
  - intros H. exfalso.
    pose proof (strip_start_length ws r) as L. rewrite H in L. simpl in L.
    lia.
  - intros _. destruct (strip_end ws r); simpl; rewrite W; reflexivity.
Qed.

Lemma strip_idempotent (ws : ascii -> bool) (s : string) :
  strip ws (strip ws s) = strip ws s.
Proof.
  unfold strip.
  rewrite (strip_start_after_end ws (strip_start ws s))
    by apply strip_start_idempotent.
  apply strip_end_idempotent.
Qed.

(** Trimming a trimmed string changes nothing. *)
Lemma trim_idempotent (s : string) : trim (trim s) = trim s.
Proof. apply strip_idempotent. Qed.

Lemma lower_unit_idempotent (c : ascii) :
  lower_unit (lower_unit c) = lower_unit c.
Proof.
  destruct c as [[] [] [] [] [] [] [] []]; reflexivity.
Qed.

Lemma lower_unit_white_space (c : ascii) :
  is_white_space (lower_unit c) = is_white_space c.
Proof.
  destruct c as [[] [] [] [] [] [] [] []]; reflexivity.
Qed.

Lemma toLowerCase_idempotent (s : string) :
  toLowerCase (toLowerCase s) = toLowerCase s.
Proof.
  induction s as [| c r IH]; simpl; [reflexivity |].
  rewrite lower_unit_idempotent, IH. reflexivity.
Qed.

Lemma toLowerCase_strip_start (s : string) :
  strip_start is_white_space (toLowerCase s)
  = toLowerCase (strip_start is_white_space s).
Proof.
  induction s as [| c r IH]; simpl; [reflexivity |].
  rewrite lower_unit_white_space.
  destruct (is_white_space c); [exact IH | reflexivity].
Qed.

Lemma toLowerCase_strip_end (s : string) :
  strip_end is_white_space (toLowerCase s)
  = toLowerCase (strip_end is_white_space s).
Proof.
  induction s as [| c r IH]; simpl; [reflexivity |].
  rewrite IH, lower_unit_white_space.
  destruct (strip_end is_white_space r); simpl; [| reflexivity].
  destruct (is_white_space c); reflexivity.
Qed.

(** Lower-casing and trimming commute. *)
Lemma toLowerCase_trim (s : string) :
  trim (toLowerCase s) = toLowerCase (trim s).
Proof.
  unfold trim, strip.
  rewrite toLowerCase_strip_start, toLowerCase_strip_end. reflexivity.
Qed.

(** A normalized email is its own normal form. *)
Lemma normalize_idempotent (e : string) :
  normalize (normalize e) = normalize e.
Proof.
  unfold normalize.
  rewrite toLowerCase_trim, toLowerCase_idempotent, trim_idempotent.
  reflexivity.
Qed.

End StringFacts.

(* ===================================================================== *)
(** ** The access gate *)
(* ===================================================================== *)

Module Gate.
Import Sqlite Server ServerFacts Ledger Access Observe Routes.

(** On a route behind the gate, a world without a session user. *)
Ltac gate_closed U :=
  first [ rewrite handle_get_inventory | rewrite handle_add
        | rewrite handle_incr | rewrite handle_decr | rewrite handle_delete ];
  rewrite U; reflexivity.

(** X1. Every inventory route (listing, add, increment, decrement, delete)
    answers a browser that has no session user with the redirect to the
    login page and does nothing else: no statement is run and the world is
    unchanged. *)
Theorem gate_blocks_visitors (tok : option string)
    (bh : string -> N -> string) (bc : string -> string -> bool)
    (r : request) (w : world) :
  inventory_route r ->
  authenticated w = false ->
  handle tok bh bc r w = (Redirect "/login", w).
Proof.
  intros R A. unfold authenticated in A.
  destruct (s_user (sess w)) eqn:U; [discriminate |].
  destruct r; try contradiction; gate_closed U.
Qed.

(** A delete sent without logging in. *)
Lemma gate_blocks_visitors_witness :
  Example.answer (PostDelete "1") Example.visitor
  = (Redirect "/login", Example.visitor).
Proof.
  apply (gate_blocks_visitors Example.token Example.bcrypt_hash
           Example.bcrypt_compare (PostDelete "1") Example.visitor).
  - exact I.
  - reflexivity.
Defined.

(** X2. Logging out empties the session and leaves the database alone;
    every inventory route is then closed again. *)
Theorem logout_closes_gate (tok : option string)
    (bh : string -> N -> string) (bc : string -> string -> bool)
    (r : request) (w : world) :
  inventory_route r ->
  let w1 := snd (handle tok bh bc PostLogout w) in
  fst (handle tok bh bc PostLogout w) = Redirect "/login"
  /\ sess w1 = empty_session
  /\ db w1 = db w
  /\ handle tok bh bc r w1 = (Redirect "/login", w1).
Proof.
  intros R w1. subst w1. rewrite handle_logout. cbn [fst snd].
  repeat split.
  assert (U : s_user (sess (with_sess empty_session w)) = None)
    by reflexivity.
  destruct r; try contradiction; gate_closed U.
Qed.

(** The member logs out, then asks for the inventory. *)
Lemma logout_closes_gate_witness :
  let w1 := snd (Example.answer PostLogout Example.member) in
  fst (Example.answer PostLogout Example.member) = Redirect "/login"
  /\ sess w1 = empty_session
  /\ db w1 = db Example.member
  /\ Example.answer GetInventory w1 = (Redirect "/login", w1).
Proof.
  apply (logout_closes_gate Example.token Example.bcrypt_hash
           Example.bcrypt_compare GetInventory Example.member).
  exact I.
Defined.

(** One request on a server that has no usable token, from a world without
    a session user. *)
Lemma closed_step (tok : option string) (bh : string -> N -> string)
    (bc : string -> string -> bool) (r : request) (w : world) :
  falsy tok = true ->
  s_user (sess w) = None ->
  s_user (sess (snd (handle tok bh bc r w))) = None
  /\ products (db (snd (handle tok bh bc r w))) = products (db w)
  /\ products_seq (db (snd (handle tok bh bc r w))) = products_seq (db w).
Proof.
  intros T U. destruct r.
  - rewrite handle_root. auto.
  - auto.
  - rewrite handle_register.
    destruct (string_field (field b "password")); [| auto].
    destruct (string_field (field b "email")); [| auto].
    cbv zeta. destruct (select_user _ (db w)); auto.
  - rewrite handle_get_login. auto.
  - rewrite handle_login. unfold token_rejected. rewrite T. auto.
  - rewrite handle_logout. auto.
  - rewrite handle_get_inventory, U. auto.
  - rewrite handle_add, U. auto.
  - rewrite handle_incr, U. auto.
  - rewrite handle_decr, U. auto.
  - rewrite handle_delete, U. auto.
Qed.

(** X3. On a server started without an access token (or with an empty
    one), no sequence of requests whatsoever gives a logged-out browser a
    session user, and the products table stays exactly as it is. *)
Theorem without_token_nothing_opens (tok : option string)
    (bh : string -> N -> string) (bc : string -> string -> bool)
    (rs : list request) (w : world) :
  falsy tok = true ->
  authenticated w = false ->
  authenticated (serve tok bh bc rs w) = false
  /\ products (db (serve tok bh bc rs w)) = products (db w)
  /\ products_seq (db (serve tok bh bc rs w)) = products_seq (db w).
Proof.
  intros T. revert w. induction rs as [| r rest IH]; intros w A.
  - auto.
  - unfold authenticated in A.
    destruct (s_user (sess w)) eqn:U; [discriminate |].
    destruct (closed_step tok bh bc r w T U) as [U1 [P1 S1]].
    simpl. rewrite <- P1, <- S1. apply IH.
    unfold authenticated. rewrite U1. reflexivity.
Qed.

(** No token configured: registering, logging in with the right password
    and then deleting gets nowhere. *)
Lemma without_token_nothing_opens_witness :
  let rs := [PostRegister Example.signup; PostLogin Example.credentials;
             PostDelete "1"; PostAdd [("name", Str "Merlot")]] in
  let w := serve None Example.bcrypt_hash Example.bcrypt_compare rs
                 Example.visitor in
  authenticated w = false
  /\ products (db w) = products (db Example.visitor)
  /\ products_seq (db w) = products_seq (db Example.visitor).
Proof.
  apply (without_token_nothing_opens None Example.bcrypt_hash
           Example.bcrypt_compare); reflexivity.
Defined.

End Gate.

(* ===================================================================== *)
(** ** Accounts and sessions *)
(* ===================================================================== *)

Module Accounts.
Import Sqlite Server ServerFacts Ledger Access Observe Routes StringFacts.

(** X4. A login never touches the database.  It is answered by the
    redirect to the inventory only when the token was accepted, the email
    and the password are strings (or left out, and then empty), a user is
    stored under the normalized email and bcrypt accepts the password for
    that user's hash, and the session then carries that user's id and
    email; on any other answer the session is what it was. *)
Theorem login_needs_credentials (tok : option string)
    (bh : string -> N -> string) (bc : string -> string -> bool)
    (b : body) (w : world) :
  let a := handle tok bh bc (PostLogin b) w in
  db (snd a) = db w
  /\ (fst a = Redirect "/inventory" ->
      token_rejected tok b = false
      /\ exists e p u,
           as_string (or_empty_field (field b "email")) = Some e
           /\ as_string (or_empty_field (field b "password")) = Some p
           /\ select_user (normalize e) (db w) = Some u
           /\ bc p (user_password_hash u) = true
           /\ s_user (sess (snd a))
              = Some (mk_session_user (Double.of_Z (user_id u))
                                      (user_email u)))
  /\ (fst a <> Redirect "/inventory" -> sess (snd a) = sess w).
Proof.
  cbv zeta. rewrite handle_login.
  destruct (token_rejected tok b).
  { split; [reflexivity | split; [discriminate | reflexivity]]. }
  destruct (as_string (or_empty_field (field b "email"))) as [e |].
  2: { split; [reflexivity | split; [discriminate | reflexivity]]. }
  cbv zeta.
  destruct (select_user _ (db w)) as [u |] eqn:S.
  2: { split; [reflexivity | split; [discriminate | reflexivity]]. }
  destruct (as_string (or_empty_field (field b "password"))) as [p |].
  2: { split; [reflexivity | split; [discriminate | reflexivity]]. }
  cbv zeta.
  destruct (bc _ (user_password_hash u)) eqn:C.
  - split; [reflexivity | split].
    + intros _. split; [reflexivity |]. exists e, p, u. auto.
    + intros H. contradiction H. reflexivity.
  - split; [reflexivity | split; [discriminate | reflexivity]].
Qed.

(** The login of the registered user. *)
Lemma login_needs_credentials_witness :
  let a := Example.answer (PostLogin Example.credentials)
                          Example.visitor_registered in
  fst a = Redirect "/inventory"
  /\ token_rejected Example.token Example.credentials = false
  /\ exists e p u,
       as_string (or_empty_field (field Example.credentials "email"))
         = Some e
       /\ as_string (or_empty_field (field Example.credentials "password"))
          = Some p
       /\ select_user (normalize e) (db Example.visitor_registered) = Some u
       /\ Example.bcrypt_compare p (user_password_hash u) = true
       /\ s_user (sess (snd a))
          = Some (mk_session_user (Double.of_Z (user_id u)) (user_email u)).
Proof.
  split; [reflexivity |].
  apply (proj1 (proj2 (login_needs_credentials Example.token
                         Example.bcrypt_hash Example.bcrypt_compare
                         Example.credentials Example.visitor_registered))).
  reflexivity.
Defined.

(** X5. Registration and login round trip: when bcrypt accepts every
    password for the hash made from it, a user registered under a fresh
    email can log in with the same password and any spelling of the email
    that differs by letter case or surrounding white space, and the session
    carries the new user's id and the normalized email. *)
Theorem register_then_login (tok : option string)
    (bh : string -> N -> string) (bc : string -> string -> bool)
    (reg login : body) (w : world) (e p e' : string) :
  (forall pw s, bc pw (bh pw s) = true) ->
  field reg "email" = Some (Str e) ->
  field reg "password" = Some (Str p) ->
  select_user (normalize e) (db w) = None ->
  field login "email" = Some (Str e') ->
  normalize e' = normalize e ->
  field login "password" = Some (Str p) ->
  token_rejected tok login = false ->
  let w1 := snd (handle tok bh bc (PostRegister reg) w) in
  let a := handle tok bh bc (PostLogin login) w1 in
  fst a = Redirect "/inventory"
  /\ s_user (sess (snd a))
     = Some (mk_session_user (Double.of_Z (users_seq (db w) + 1))
                             (normalize e)).
Proof.
  intros B E P F E' N P' T w1 a. subst a w1.
  rewrite (handle_register tok bh bc reg w), E, P.
  cbn [string_field as_string]. cbv zeta. rewrite F.
  cbn [snd].
  assert (Ee : as_string (or_empty_field (Some (Str e'))) = Some e')
    by (destruct e'; reflexivity).
  assert (Ep : as_string (or_empty_field (Some (Str p))) = Some p)
    by (destruct p; reflexivity).
  rewrite handle_login, T, E', P', Ee, Ep. cbv zeta. cbn [db].
  rewrite N. rewrite select_user_app_new by exact F.
  cbn [user_password_hash user_id user_email]. rewrite B.
  split; reflexivity.
Qed.

Lemma example_bcrypt_accepts (pw : string) (s : N) :
  Example.bcrypt_compare pw (Example.bcrypt_hash pw s) = true.
Proof. unfold Example.bcrypt_compare. apply String.eqb_refl. Qed.

(** Registered as "Novo@X.com ", logged in as " novo@x.COM". *)
Lemma register_then_login_witness :
  let reg := [("email", Str "Novo@X.com "); ("password", Str "vinho")] in
  let login := [("email", Str " novo@x.COM"); ("password", Str "vinho");
                ("accessToken", Str "segredo")] in
  let w1 := snd (Example.answer (PostRegister reg)
                                Example.visitor_registered) in
  let a := Example.answer (PostLogin login) w1 in
  fst a = Redirect "/inventory"
  /\ s_user (sess (snd a))
     = Some (mk_session_user (Double.of_Z 2) "novo@x.com").
Proof.
  apply (register_then_login Example.token Example.bcrypt_hash
           Example.bcrypt_compare
           [("email", Str "Novo@X.com "); ("password", Str "vinho")]
           [("email", Str " novo@x.COM"); ("password", Str "vinho");
            ("accessToken", Str "segredo")]
           Example.visitor_registered "Novo@X.com " "vinho" " novo@x.COM");
    try reflexivity.
  exact example_bcrypt_accepts.
Defined.

(** X6. A registration without an email or without a password is answered
    with the page that says "Erro."; no user is stored and the session is
    what it was. *)
Theorem register_missing_field (tok : option string)
    (bh : string -> N -> string) (bc : string -> string -> bool)
    (b : body) (w : world) :
  field b "email" = None \/ field b "password" = None ->
  fst (handle tok bh bc (PostRegister b) w) = Render (RegisterFailed msg_error)
  /\ db (snd (handle tok bh bc (PostRegister b) w)) = db w
  /\ sess (snd (handle tok bh bc (PostRegister b) w)) = sess w.
Proof.
  intros H. rewrite handle_register.
  destruct (string_field (field b "password")) as [p |] eqn:P;
    [| repeat split].
  destruct (string_field (field b "email")) as [e |] eqn:E;
    [| repeat split].
  destruct H as [H | H]; rewrite H in *; discriminate.
Qed.

(** A registration with a password and no email. *)
Lemma register_missing_field_witness :
  fst (Example.answer (PostRegister [("password", Str "pass1")])
                      Example.visitor)
    = Render (RegisterFailed msg_error)
  /\ db (snd (Example.answer (PostRegister [("password", Str "pass1")])
                             Example.visitor))
     = db Example.visitor
  /\ sess (snd (Example.answer (PostRegister [("password", Str "pass1")])
                               Example.visitor))
     = sess Example.visitor.
Proof.
  apply (register_missing_field Example.token Example.bcrypt_hash
           Example.bcrypt_compare [("password", Str "pass1")] Example.visitor).
  left. reflexivity.
Defined.

(** X7. The message of a successful registration is shown once: the login
    page asked for next carries it, and the login page asked for after
    that carries none. *)
Theorem registration_flash_shown_once (tok : option string)
    (bh : string -> N -> string) (bc : string -> string -> bool)
    (b : body) (w : world) (e p : string) :
  field b "email" = Some (Str e) ->
  field b "password" = Some (Str p) ->
  select_user (normalize e) (db w) = None ->
  let w1 := snd (handle tok bh bc (PostRegister b) w) in
  let w2 := snd (handle tok bh bc GetLogin w1) in
  fst (handle tok bh bc GetLogin w1) = Render (LoginForm msg_registered)
  /\ fst (handle tok bh bc GetLogin w2) = Render (LoginForm "")
  /\ s_user (sess w2) = s_user (sess w).
Proof.
  intros E P F w1 w2. subst w2 w1.
  rewrite (handle_register tok bh bc b w), E, P.
  cbn [string_field as_string]. cbv zeta. rewrite F.
  cbn [snd]. rewrite !handle_get_login. repeat split.
Qed.

Lemma registration_flash_shown_once_witness :
  let w1 := snd (Example.answer (PostRegister Example.signup)
                                Example.visitor) in
  let w2 := snd (Example.answer GetLogin w1) in
  fst (Example.answer GetLogin w1) = Render (LoginForm msg_registered)
  /\ fst (Example.answer GetLogin w2) = Render (LoginForm "")
  /\ s_user (sess w2) = s_user (sess Example.visitor).
Proof.
  apply (registration_flash_shown_once Example.token Example.bcrypt_hash
           Example.bcrypt_compare Example.signup Example.visitor
           "a@x.com" "pass1"); reflexivity.
Defined.

End Accounts.

(* ===================================================================== *)
(** ** The users table over whole runs *)
(* ===================================================================== *)

Module Users.
Import Sqlite Server ServerFacts Ledger Access Observe Routes StringFacts.

(** An invariant of every step of the database is an invariant of every
    run of the server. *)
Lemma serve_db_invariant (P : database -> Prop) (tok : option string)
    (bh : string -> N -> string) (bc : string -> string -> bool) :
  (forall d d', db_step d d' -> P d -> P d') ->
  forall rs w, P (db w) -> P (db (serve tok bh bc rs w)).
Proof.
  intros Step. induction rs as [| r rest IH]; intros w H; simpl; [exact H |].
  apply IH. apply (Step (db w)); [apply handle_db_step | exact H].
Qed.

Lemma update_quantity_users (e : sqlnum -> option sqlnum) (param : string)
    (d d' : database) :
  update_quantity e param d = inr d' ->
  users d' = users d /\ users_seq d' = users_seq d
  /\ products_seq d' = products_seq d.
Proof.
  unfold update_quantity.
  destruct (update_rows e param (products d)); [| discriminate].
  intros E. injection E as <-. auto.
Qed.

Lemma db_step_users (d d' : database) :
  db_step d d' -> exists more, users d' = (users d ++ more)%list.
Proof.
  intros [| email h F | name q N | param d1 E | param d1 E | param].
  - exists []. symmetry. apply app_nil_r.
  - eexists. reflexivity.
  - exists []. symmetry. apply app_nil_r.
  - apply update_quantity_users in E as [-> _]. exists [].
    symmetry. apply app_nil_r.
  - apply update_quantity_users in E as [-> _]. exists [].
    symmetry. apply app_nil_r.
  - exists []. symmetry. apply app_nil_r.
Qed.

(** X8. The users table only grows: after any sequence of requests the
    rows that were stored are still there, unchanged and in the same
    order, followed by the rows registered since.  No request deletes or
    rewrites a user. *)
Theorem users_only_grow (tok : option string)
    (bh : string -> N -> string) (bc : string -> string -> bool)
    (rs : list request) (w : world) :
  exists more, users (db (serve tok bh bc rs w)) = (users (db w) ++ more)%list.
Proof.
  revert w. induction rs as [| r rest IH]; intros w; simpl.
  - exists []. symmetry. apply app_nil_r.
  - destruct (IH (snd (handle tok bh bc r w))) as [more2 E2].
    destruct (db_step_users _ _ (handle_db_step tok bh bc r w)) as [more1 E1].
    exists (more1 ++ more2)%list. rewrite E2, E1. symmetry. apply app_assoc.
Qed.

Lemma select_user_none_not_in (email : string) (d : database) :
  select_user email d = None -> ~ In email (map user_email (users d)).
Proof.
  unfold select_user. intros F I.
  apply in_map_iff in I as [u [E Hu]].
  pose proof (find_none _ _ F u Hu) as N. simpl in N.
  rewrite E, String.eqb_refl in N. discriminate.
Qed.

Lemma NoDup_add_last {A : Type} (l : list A) (x : A) :
  NoDup l -> ~ In x l -> NoDup (l ++ [x]).
Proof.
  induction l as [| y rest IH]; simpl; intros N I.
  - constructor; [intros [] | constructor].
  - inversion N as [| ? ? Hnotin Hrest]; subst.
    constructor.
    + intros H. apply in_app_or in H as [H | [H | []]]; [auto |].
      apply I. left. symmetry. exact H.
    + apply IH; auto.
Qed.

Lemma db_step_emails (d d' : database) :
  db_step d d' ->
  emails_unique d /\ emails_normalized d ->
  emails_unique d' /\ emails_normalized d'.
Proof.
  unfold emails_unique, emails_normalized.
  intros [| email h F | name q N | param d1 E | param d1 E | param] [U M];
    try (split; assumption).
  - simpl. split.
    + rewrite map_app. simpl. apply NoDup_add_last; [exact U |].
      apply select_user_none_not_in. exact F.
    + apply Forall_app. split; [exact M |].
      constructor; [| constructor]. simpl. apply normalize_idempotent.
  - apply update_quantity_users in E as [-> _]. split; assumption.
  - apply update_quantity_users in E as [-> _]. split; assumption.
Qed.

(** X9. Whatever requests arrive, no two stored users share an email, and
    every stored email is trimmed and in lower case. *)
Theorem emails_stay_unique_and_normalized (tok : option string)
    (bh : string -> N -> string) (bc : string -> string -> bool)
    (rs : list request) (w : world) :
  emails_unique (db w) ->
  emails_normalized (db w) ->
  emails_unique (db (serve tok bh bc rs w))
  /\ emails_normalized (db (serve tok bh bc rs w)).
Proof.
  intros U M.
  apply (serve_db_invariant
           (fun d => emails_unique d /\ emails_normalized d) tok bh bc);
    [| split; assumption].
  intros d d' S H. eapply db_step_emails; eauto.
Qed.

(** Three registrations, two of them under one email. *)
Lemma emails_stay_unique_and_normalized_witness :
  let rs := [PostRegister Example.signup;
             PostRegister [("email", Str " A@X.COM");
                           ("password", Str "outra")];
             PostRegister [("email", Str "B@x.com");
                           ("password", Str "vinho")]] in
  emails_unique (db (Example.replay rs Example.visitor))
  /\ emails_normalized (db (Example.replay rs Example.visitor)).
Proof.
  apply (emails_stay_unique_and_normalized Example.token Example.bcrypt_hash
           Example.bcrypt_compare).
  - constructor.
  - constructor.
Defined.

Lemma session_bound_step (tok : option string) (bh : string -> N -> string)
    (bc : string -> string -> bool) (r : request) (w : world) :
  session_bound w -> session_bound (snd (handle tok bh bc r w)).
Proof.
  intros H. destruct r.
  - rewrite handle_root. exact H.
  - exact H.
  - rewrite handle_register.
    destruct (string_field (field b "password")); [| exact H].
    destruct (string_field (field b "email")); [| exact H].
    cbv zeta. destruct (select_user _ (db w)); [exact H |].
    unfold session_bound in *. simpl.
    destruct (s_user (sess w)) as [su |]; [| exact I].
    destruct H as [u [Hu E]]. exists u. split; [| exact E].
    apply in_or_app. left. exact Hu.
  - rewrite handle_get_login. exact H.
  - rewrite handle_login.
    destruct (token_rejected tok b); [exact H |].
    destruct (as_string (or_empty_field (field b "email")));
      [| exact H].
    cbv zeta. destruct (select_user _ (db w)) as [u |] eqn:S; [| exact H].
    destruct (as_string (or_empty_field (field b "password")));
      [| exact H].
    cbv zeta. destruct (bc _ (user_password_hash u)); [| exact H].
    unfold session_bound. simpl. exists u.
    split; [| split; reflexivity].
    unfold select_user in S. apply find_some in S. apply S.
  - rewrite handle_logout. exact I.
  - rewrite handle_get_inventory.
    destruct (s_user (sess w)) eqn:U; [| exact H].
    unfold session_bound in *. simpl. rewrite U in *. exact H.
  - rewrite handle_add.
    destruct (s_user (sess w)) eqn:U; [| exact H].
    destruct (string_field (field b "name")); [| exact H].
    cbv zeta. destruct (insert_product _ _ (db w)) eqn:E.
    + unfold session_bound in *. simpl. rewrite U in *. exact H.
    + unfold insert_product in E. destruct (bind_number _); [| discriminate].
      injection E as <-.
      unfold session_bound in *. simpl. rewrite U in *. exact H.
  - rewrite handle_incr.
    destruct (s_user (sess w)) eqn:U; [| exact H].
    destruct (update_quantity plus_one id (db w)) eqn:E.
    + unfold session_bound in *. simpl. rewrite U in *. exact H.
    + apply update_quantity_users in E as [E _].
      unfold session_bound in *. simpl. rewrite U, E in *. exact H.
  - rewrite handle_decr.
    destruct (s_user (sess w)) eqn:U; [| exact H].
    destruct (update_quantity minus_one_floor id (db w)) eqn:E.
    + unfold session_bound in *. simpl. rewrite U in *. exact H.
    + apply update_quantity_users in E as [E _].
      unfold session_bound in *. simpl. rewrite U, E in *. exact H.
  - rewrite handle_delete.
    destruct (s_user (sess w)) eqn:U; [| exact H].
    unfold session_bound in *. simpl. rewrite U in *. exact H.
Qed.

(** X10. A session user is always a registered user: whatever requests
    arrive, the id and the email kept in the session are those of a row of
    the users table. *)
Theorem session_names_a_user (tok : option string)
    (bh : string -> N -> string) (bc : string -> string -> bool)
    (rs : list request) (w : world) :
  session_bound w -> session_bound (serve tok bh bc rs w).
Proof.
  revert w. induction rs as [| r rest IH]; intros w H; simpl; [exact H |].
  apply IH. apply session_bound_step. exact H.
Qed.

(** From a browser with no session: register, log in, add a product. *)
Lemma session_names_a_user_witness :
  session_bound Example.visitor
  /\ session_bound
       (Example.replay [PostRegister Example.signup;
                        PostLogin Example.credentials;
                        PostAdd [("name", Str "Merlot")]] Example.visitor).
Proof.
  split; [exact I |].
  apply (session_names_a_user Example.token Example.bcrypt_hash
           Example.bcrypt_compare). exact I.
Defined.

End Users.

(* ===================================================================== *)
(** ** The products table over whole runs *)
(* ===================================================================== *)

Module Stock.
Import Double DoubleFacts Sqlite SqliteFacts Server ServerFacts Ledger.
Import Access Keys Observe IdText Routes StringFacts Users.

(** *** Ids and the order of the listing *)

Lemma sorted_add_last (l : list Z) (x : Z) :
  StronglySorted Z.lt l -> Forall (fun i => i < x) l ->
  StronglySorted Z.lt (l ++ [x]).
Proof.
  induction l as [| y rest IH]; simpl; intros S B.
  - constructor; constructor.
  - inversion S as [| ? ? Srest Hy]; subst.
    inversion B as [| ? ? By Brest]; subst.
    constructor; [apply IH; assumption |].
    apply Forall_app. split; [exact Hy | constructor; [exact By | constructor]].
Qed.

Lemma sorted_filter (f : product -> bool) (ps : list product) :
  StronglySorted Z.lt (map product_id ps) ->
  StronglySorted Z.lt (map product_id (filter f ps)).
Proof.
  induction ps as [| p rest IH]; simpl; intros S; [constructor |].
  inversion S as [| ? ? Srest Hp]; subst.
  destruct (f p); simpl; [| apply IH; exact Srest].
  constructor; [apply IH; exact Srest |].
  rewrite Forall_map in *. rewrite Forall_forall in *.
  intros q Hq. apply filter_In in Hq as [Hq _]. auto.
Qed.

Lemma db_step_creation_order (d d' : database) :
  db_step d d' -> creation_order d -> creation_order d'.
Proof.
  unfold creation_order.
  intros [| email h F | name q N | param d1 E | param d1 E | param] [S B];
    try (split; assumption).
  - unfold appended. simpl. split.
    + rewrite map_app. simpl. apply sorted_add_last; [exact S |].
      rewrite Forall_map. eapply Forall_impl; [| exact B].
      simpl. intros p Hp. lia.
    + apply Forall_app. split.
      * eapply Forall_impl; [| exact B]. simpl. intros p Hp. lia.
      * constructor; [simpl; lia | constructor].
  - unfold update_quantity in E.
    destruct (update_rows plus_one param (products d)) as [ps |] eqn:U;
      [| discriminate].
    injection E as <-. simpl.
    rewrite ids_bounded, (update_rows_ids _ _ _ _ U), <- ids_bounded. auto.
  - unfold update_quantity in E.
    destruct (update_rows minus_one_floor param (products d)) as [ps |] eqn:U;
      [| discriminate].
    injection E as <-. simpl.
    rewrite ids_bounded, (update_rows_ids _ _ _ _ U), <- ids_bounded. auto.
  - unfold delete_product. simpl. split; [apply sorted_filter; exact S |].
    apply Forall_forall. intros p Hp. apply filter_In in Hp as [Hp _].
    rewrite Forall_forall in B. auto.
Qed.

(** X11. Ids grow with creation: when the rows of the products table are
    in strictly ascending id order, none above the AUTOINCREMENT counter,
    they still are after any sequence of requests. *)
Theorem ids_ascend_with_creation (tok : option string)
    (bh : string -> N -> string) (bc : string -> string -> bool)
    (rs : list request) (w : world) :
  creation_order (db w) -> creation_order (db (serve tok bh bc rs w)).
Proof.
  apply (serve_db_invariant creation_order tok bh bc).
  intros d d' S H. eapply db_step_creation_order; eauto.
Qed.

(** The seeded table, then a delete, two adds and an increment. *)
Lemma ids_ascend_with_creation_witness :
  creation_order (db Example.member)
  /\ creation_order
       (db (Example.replay [PostDelete "2"; PostAdd [("name", Str "Merlot")];
                            PostAdd [("name", Str "Porto");
                                     ("quantity", Str "4")];
                            PostIncr "4"] Example.member)).
Proof.
  assert (H : creation_order (db Example.member)).
  { split; simpl.
    - repeat constructor.
    - repeat constructor; simpl; lia. }
  split; [exact H |].
  apply (ids_ascend_with_creation Example.token Example.bcrypt_hash
           Example.bcrypt_compare). exact H.
Defined.

Lemma select_products_sorted (ps : list product) :
  StronglySorted Z.lt (map product_id ps) ->
  fold_right insert_by_id [] ps = ps.
Proof.
  induction ps as [| p rest IH]; simpl; intros S; [reflexivity |].
  inversion S as [| ? ? Srest Hp]; subst.
  rewrite (IH Srest).
  destruct rest as [| q rest']; simpl; [reflexivity |].
  inversion Hp as [| ? ? Hq _]; subst.
  replace (product_id p <? product_id q) with true; [reflexivity |].
  symmetry. apply Z.ltb_lt. exact Hq.
Qed.

(** X12. For a logged-in browser and a table in creation order, the
    inventory page is rendered with the email of the session and one row
    for each stored product, oldest first, as better-sqlite3 hands the
    rows to JavaScript: the name as stored, the id and the quantity as
    numbers.  An INTEGER of magnitude at most 2^53 arrives as exactly that
    integer (a larger one as the double nearest to it) and a REAL as it
    is.  The database and the session are not changed. *)
Theorem inventory_lists_in_creation_order (tok : option string)
    (bh : string -> N -> string) (bc : string -> string -> bool)
    (w : world) (u : session_user) :
  s_user (sess w) = Some u ->
  creation_order (db w) ->
  let a := handle tok bh bc GetInventory w in
  fst a = Render (Inventory (su_email u) (map js_row (products (db w))))
  /\ db (snd a) = db w
  /\ sess (snd a) = sess w
  /\ forall p, In p (products (db w)) ->
       row_name (js_row p) = product_name p
       /\ (Z.abs (product_id p) <= 2 ^ 53 ->
           to_Z (row_id (js_row p)) = Some (product_id p))
       /\ (forall q, product_quantity p = SqlInt q -> Z.abs q <= 2 ^ 53 ->
                     to_Z (row_quantity (js_row p)) = Some q)
       /\ (forall f, product_quantity p = SqlReal f ->
                     row_quantity (js_row p) = f).
Proof.
  intros U [S _] a. subst a. rewrite handle_get_inventory, U.
  unfold select_products. rewrite (select_products_sorted _ S).
  split; [reflexivity | split; [reflexivity | split; [reflexivity |]]].
  intros p _. unfold js_row. cbn [row_name row_id row_quantity].
  split; [reflexivity | split; [apply of_Z_exact | split]].
  - intros q -> B. apply of_Z_exact. exact B.
  - intros f ->. reflexivity.
Qed.

(** The page the member gets: the three seeded products, at 12, 8 and
    5. *)
Lemma inventory_lists_in_creation_order_witness :
  let a := Example.answer GetInventory Example.member in
  fst a = Render (Inventory "a@x.com"
                    (map js_row (products (db Example.member))))
  /\ map (fun r => to_Z (row_id r)) (map js_row (products (db Example.member)))
     = [Some 1; Some 2; Some 3]
  /\ map (fun r => to_Z (row_quantity r))
         (map js_row (products (db Example.member)))
     = [Some 12; Some 8; Some 5]
  /\ db (snd a) = db Example.member
  /\ sess (snd a) = sess Example.member.
Proof.
  assert (C : creation_order (db Example.member)).
  { split; simpl.
    - repeat constructor.
    - repeat constructor; simpl; lia. }
  destruct (inventory_lists_in_creation_order Example.token
              Example.bcrypt_hash Example.bcrypt_compare Example.member
              (mk_session_user (of_Z 1) "a@x.com") eq_refl C)
    as [R [D [S _]]].
  cbv zeta. split; [exact R |].
  split; [reflexivity | split; [reflexivity | split; [exact D | exact S]]].
Defined.

(** Above 2^53 the page does not show what is stored: a product added at
    9007199254740992 and incremented once is stored at 9007199254740993
    and listed at 9007199254740992. *)
Example large_quantity_is_listed_rounded :
  let w := Example.replay
             [PostAdd [("name", Str "Porto");
                       ("quantity", Str "9007199254740992")];
              PostIncr "4"] Example.member in
  quantity_of 4 (db w) = Some (SqlInt 9007199254740993)
  /\ exists email rows,
       fst (Example.answer GetInventory w) = Render (Inventory email rows)
       /\ map (fun r => to_Z (row_quantity r)) rows
          = [Some 12; Some 8; Some 5; Some 9007199254740992].
Proof.
  cbv zeta. split; [reflexivity |].
  eexists. eexists. split; reflexivity.
Qed.

Lemma update_rows_origin (e : sqlnum -> option sqlnum) (param : string)
    (ps ps' : list product) :
  update_rows e param ps = Some ps' ->
  forall p', In p' ps' ->
    exists p, In p ps /\ product_id p = product_id p'
              /\ product_name p = product_name p'.
Proof.
  revert ps'. induction ps as [| p rest IH]; intros ps' E p' I; simpl in E.
  - injection E as <-. contradiction.
  - destruct (if matches param p then set_quantity e p else Some p)
      as [p1 |] eqn:E1; [| discriminate].
    destruct (update_rows e param rest) as [rest' |]; [| discriminate].
    injection E as <-. destruct I as [<- | I].
    + exists p. split; [left; reflexivity |].
      destruct (matches param p).
      * unfold set_quantity in E1.
        destruct (e (product_quantity p)); [| discriminate].
        injection E1 as <-. auto.
      * injection E1 as <-. auto.
    + destruct (IH rest' eq_refl p' I) as [p0 [I0 E0]].
      exists p0. split; [right; exact I0 | exact E0].
Qed.

Lemma db_step_rows (d d' : database) :
  db_step d d' ->
  products_seq d <= products_seq d'
  /\ forall p', In p' (products d') ->
       (exists p, In p (products d) /\ product_id p = product_id p'
                  /\ product_name p = product_name p')
       \/ product_id p' = products_seq d + 1.
Proof.
  intros [| email h F | name q N | param d1 E | param d1 E | param].
  - split; [lia |]. intros p' I. left. exists p'. auto.
  - split; [simpl; lia |]. intros p' I. left. exists p'. auto.
  - split; [simpl; lia |]. intros p' I. simpl in I.
    apply in_app_or in I as [I | [<- | []]].
    + left. exists p'. auto.
    + right. reflexivity.
  - unfold update_quantity in E.
    destruct (update_rows plus_one param (products d)) as [ps |] eqn:U;
      [| discriminate].
    injection E as <-. split; [simpl; lia |]. intros p' I. left.
    eapply update_rows_origin; eauto.
  - unfold update_quantity in E.
    destruct (update_rows minus_one_floor param (products d)) as [ps |] eqn:U;
      [| discriminate].
    injection E as <-. split; [simpl; lia |]. intros p' I. left.
    eapply update_rows_origin; eauto.
  - split; [simpl; lia |]. intros p' I. simpl in I.
    apply filter_In in I as [I _]. left. exists p'. auto.
Qed.

(** X13. Ids are handed out once and names never change: a product found
    after any sequence of requests whose id is not above the counter the
    run started with was in the table when the run started, under the same
    id and the same name.  (The counter never goes back, so the id of a
    deleted product is not given to another.) *)
Theorem ids_are_not_reused (tok : option string)
    (bh : string -> N -> string) (bc : string -> string -> bool)
    (rs : list request) (w : world) (p' : product) :
  In p' (products (db (serve tok bh bc rs w))) ->
  product_id p' <= products_seq (db w) ->
  products_seq (db w) <= products_seq (db (serve tok bh bc rs w))
  /\ exists p, In p (products (db w))
               /\ product_id p = product_id p'
               /\ product_name p = product_name p'.
Proof.
  revert w. induction rs as [| r rest IH]; intros w I B; simpl in *.
  - split; [lia |]. exists p'. auto.
  - destruct (db_step_rows _ _ (handle_db_step tok bh bc r w)) as [M O].
    destruct (IH _ I) as [M1 [p1 [I1 [E1 N1]]]]; [lia |].
    split; [lia |].
    destruct (O p1 I1) as [[p [Ip [Ei En]]] | Fresh].
    + exists p. split; [exact Ip |]. split; congruence.
    + lia.
Qed.

(** The last product is deleted and another is added: the product that
    still has id 1 is the one that had it. *)
Lemma ids_are_not_reused_witness :
  let w := Example.replay [PostDelete "3"; PostAdd [("name", Str "Merlot")];
                           PostDecr "1"] Example.member in
  map product_id (products (db w)) = [1; 2; 4]
  /\ products_seq (db Example.member) <= products_seq (db w)
  /\ exists p, In p (products (db Example.member))
               /\ product_id p = 1
               /\ product_name p = "Tinto Reserva".
Proof.
  split; [reflexivity |].
  apply (ids_are_not_reused Example.token Example.bcrypt_hash
           Example.bcrypt_compare
           [PostDelete "3"; PostAdd [("name", Str "Merlot")]; PostDecr "1"]
           Example.member (mk_product 1 "Tinto Reserva" (SqlInt 11))).
  - left. reflexivity.
  - simpl. lia.
Defined.

(** *** Delete *)

Lemma find_after_delete (id : Z) (ps : list product) :
  find (fun p => product_id p =? id)
       (filter (fun p => negb (id =? product_id p)) ps) = None.
Proof.
  induction ps as [| p rest IH]; simpl; [reflexivity |].
  destruct (id =? product_id p) eqn:M; simpl; [exact IH |].
  rewrite Z.eqb_sym, M. exact IH.
Qed.

Lemma find_other_after_delete (id id' : Z) (ps : list product) :
  id' <> id ->
  find (fun p => product_id p =? id')
       (filter (fun p => negb (id =? product_id p)) ps)
  = find (fun p => product_id p =? id') ps.
Proof.
  intros N. induction ps as [| p rest IH]; simpl; [reflexivity |].
  destruct (id =? product_id p) eqn:M; simpl.
  - apply Z.eqb_eq in M.
    replace (product_id p =? id') with false; [exact IH |].
    symmetry. apply Z.eqb_neq. congruence.
  - destruct (product_id p =? id'); [reflexivity | exact IH].
Qed.

Lemma filter_twice {A : Type} (f : A -> bool) (l : list A) :
  filter f (filter f l) = filter f l.
Proof.
  induction l as [| x rest IH]; simpl; [reflexivity |].
  destruct (f x) eqn:F; simpl; [rewrite F, IH; reflexivity | exact IH].
Qed.

(** X14. For a logged-in browser, a delete addressed to an id written in
    digits removes the product with that id and no other: afterwards no
    product has the id, every other id finds the row it found before, and
    a second delete of the same id changes nothing. *)
Theorem delete_removes_that_product (tok : option string)
    (bh : string -> N -> string) (bc : string -> string -> bool)
    (w : world) (param : string) :
  authenticated w = true ->
  id_text param = true ->
  let a := handle tok bh bc (PostDelete param) w in
  fst a = Redirect "/inventory"
  /\ product_by_id (id_number param) (db (snd a)) = None
  /\ (forall id', id' <> id_number param ->
        product_by_id id' (db (snd a)) = product_by_id id' (db w))
  /\ db (snd (handle tok bh bc (PostDelete param) (snd a))) = db (snd a).
Proof.
  intros A T a. subst a. unfold authenticated in A.
  pose proof (rowid_of_id_text param T) as R.
  generalize dependent (id_number param). intros id R.
  rewrite (handle_delete tok bh bc param w).
  destruct (s_user (sess w)) as [u |] eqn:U; [| discriminate].
  cbn [fst snd].
  assert (F : forall ps,
             filter (fun p => negb (matches param p)) ps
             = filter (fun p => negb (id =? product_id p)) ps).
  { intros ps. apply filter_ext. intros p.
    rewrite (matches_rowid _ _ _ R). reflexivity. }
  repeat split.
  - unfold product_by_id, delete_product. simpl. rewrite F.
    apply find_after_delete.
  - intros id' N. unfold product_by_id, delete_product. simpl. rewrite F.
    apply find_other_after_delete. exact N.
  - rewrite handle_delete. simpl. rewrite U. simpl.
    unfold delete_product. simpl. rewrite filter_twice. reflexivity.
Qed.

(** The second seeded product is deleted. *)
Lemma delete_removes_that_product_witness :
  let a := Example.answer (PostDelete "2") Example.member in
  fst a = Redirect "/inventory"
  /\ product_by_id 2 (db (snd a)) = None
  /\ (forall id', id' <> 2 ->
        product_by_id id' (db (snd a)) = product_by_id id' (db Example.member))
  /\ db (snd (Example.answer (PostDelete "2") (snd a))) = db (snd a).
Proof.
  apply (delete_removes_that_product Example.token Example.bcrypt_hash
           Example.bcrypt_compare Example.member "2"); reflexivity.
Defined.

(** *** Increment and decrement *)




(** One UPDATE of a table of numbers by a logged-in browser. *)
Lemma update_step (tok : option string) (bh : string -> N -> string)
    (bc : string -> string -> bool) (e : sqlnum -> option sqlnum)
    (r : request) (w : world) (param : string) (id : Z) (p : product) :
  (r = PostIncr param /\ e = plus_one)
  \/ (r = PostDecr param /\ e = minus_one_floor) ->
  authenticated w = true ->
  quantities_are_numbers (db w) ->
  rowid_of_text param = Some id ->
  product_by_id id (db w) = Some p ->
  let w1 := snd (handle tok bh bc r w) in
  authenticated w1 = true
  /\ quantities_are_numbers (db w1)
  /\ product_by_id id (db w1) = set_quantity e p.
Proof.
  intros C A Q R F w1. subst w1. unfold authenticated in *.
  assert (T : forall q, is_number q = true ->
                        exists q', e q = Some q' /\ is_number q' = true).
  { destruct C as [[_ ->] | [_ ->]];
      [apply plus_one_number | apply minus_one_floor_number]. }
  destruct (update_rows_numbers e param T _ Q) as [ps [U Qs]].
  assert (H : handle tok bh bc r w
              = (Redirect "/inventory",
                 with_db (with_products ps (products_seq (db w)) (db w))
                         (called (match r with
                                  | PostIncr _ => UpdateIncr param
                                  | _ => UpdateDecr param
                                  end) w))).
  { destruct C as [[-> ->] | [-> ->]];
      [rewrite handle_incr | rewrite handle_decr];
      (destruct (s_user (sess w)); [| discriminate]);
      unfold update_quantity; rewrite U; reflexivity. }
  rewrite H. cbn [snd]. split; [exact A | split; [exact Qs |]].
  unfold product_by_id in *. simpl.
  rewrite (update_rows_find e param id R _ _ U), F. reflexivity.
Qed.

(** X16. Repeated decrements count down to the floor: for a logged-in
    browser and a product whose quantity is an integer q with
    0 <= q <= 2^63 - 1, after n decrements addressed to it, by its id
    written in digits, the quantity is max (q - n) 0. *)
Theorem decrements_count_down_to_zero (tok : option string)
    (bh : string -> N -> string) (bc : string -> string -> bool)
    (n : nat) (w : world) (param : string) (q : Z) :
  authenticated w = true ->
  quantities_are_numbers (db w) ->
  id_text param = true ->
  quantity_of (id_number param) (db w) = Some (SqlInt q) ->
  0 <= q <= max_int64 ->
  quantity_of (id_number param)
              (db (serve tok bh bc (repeat (PostDecr param) n) w))
  = Some (SqlInt (Z.max (q - Z.of_nat n) 0)).
Proof.
  intros A Q T. pose proof (rowid_of_id_text param T) as R.
  generalize dependent (id_number param). intros id R.
  revert w q A Q.
  induction n as [| n IH]; intros w q A Q F B.
  - simpl. rewrite F. do 2 f_equal. lia.
  - unfold quantity_of in F.
    destruct (product_by_id id (db w)) as [p |] eqn:P; [| discriminate].
    injection F as F.
    destruct (update_step tok bh bc minus_one_floor (PostDecr param) w
                param id p (or_intror (conj eq_refl eq_refl)) A Q R P)
      as [A1 [Q1 P1]].
    cbn [repeat serve].
    rewrite (IH _ (Z.max (q - 1) 0) A1 Q1).
    + do 2 f_equal. lia.
    + unfold quantity_of. rewrite P1. unfold set_quantity. rewrite F.
      rewrite minus_one_floor_int by (unfold min_int64; lia). reflexivity.
    + unfold max_int64 in *. lia.
Qed.

(** The first seeded product, at 12: seven decrements, then twenty. *)
Lemma decrements_count_down_to_zero_witness :
  quantity_of 1 (db (Example.replay (repeat (PostDecr "1") 7) Example.member))
    = Some (SqlInt 5)
  /\ quantity_of 1
       (db (Example.replay (repeat (PostDecr "1") 20) Example.member))
     = Some (SqlInt 0).
Proof.
  assert (Q : quantities_are_numbers (db Example.member))
    by (repeat constructor).
  assert (B : 0 <= 12 <= max_int64) by (unfold max_int64; lia).
  split.
  - apply (decrements_count_down_to_zero Example.token Example.bcrypt_hash
             Example.bcrypt_compare 7 Example.member "1" 12 eq_refl Q
             eq_refl eq_refl B).
  - apply (decrements_count_down_to_zero Example.token Example.bcrypt_hash
             Example.bcrypt_compare 20 Example.member "1" 12 eq_refl Q
             eq_refl eq_refl B).
Defined.

(** X17. Repeated increments add up: for a logged-in browser and a product
    whose quantity is an integer q >= 0, after n increments addressed to
    it, by its id written in digits, the quantity is q + n, as long as
    q + n does not exceed 2^63 - 1. *)
Theorem increments_add_up (tok : option string)
    (bh : string -> N -> string) (bc : string -> string -> bool)
    (n : nat) (w : world) (param : string) (q : Z) :
  authenticated w = true ->
  quantities_are_numbers (db w) ->
  id_text param = true ->
  quantity_of (id_number param) (db w) = Some (SqlInt q) ->
  0 <= q ->
  q + Z.of_nat n <= max_int64 ->
  quantity_of (id_number param)
              (db (serve tok bh bc (repeat (PostIncr param) n) w))
  = Some (SqlInt (q + Z.of_nat n)).
Proof.
  intros A Q T. pose proof (rowid_of_id_text param T) as R.
  generalize dependent (id_number param). intros id R.
  revert w q A Q.
  induction n as [| n IH]; intros w q A Q F B0 B.
  - simpl. rewrite F. do 2 f_equal. lia.
  - unfold quantity_of in F.
    destruct (product_by_id id (db w)) as [p |] eqn:P; [| discriminate].
    injection F as F.
    destruct (update_step tok bh bc plus_one (PostIncr param) w
                param id p (or_introl (conj eq_refl eq_refl)) A Q R P)
      as [A1 [Q1 P1]].
    cbn [repeat serve].
    rewrite (IH _ (q + 1) A1 Q1).
    + do 2 f_equal. lia.
    + unfold quantity_of. rewrite P1. unfold set_quantity. rewrite F.
      rewrite plus_one_int by (unfold min_int64; lia). reflexivity.
    + lia.
    + lia.
Qed.

(** The third seeded product, at 5, incremented four times. *)
Lemma increments_add_up_witness :
  quantity_of 3 (db (Example.replay (repeat (PostIncr "3") 4) Example.member))
  = Some (SqlInt 9).
Proof.
  apply (increments_add_up Example.token Example.bcrypt_hash
           Example.bcrypt_compare 4 Example.member "3" 5).
  - reflexivity.
  - repeat constructor.
  - reflexivity.
  - reflexivity.
  - lia.
  - unfold max_int64. simpl. lia.
Defined.

(** *** What is stored, and what can fail *)






Lemma db_step_names (d d' : database) :
  db_step d d' -> names_trimmed d -> names_trimmed d'.
Proof.
  unfold names_trimmed.
  intros [| email h F | name q N | param d1 E | param d1 E | param] T;
    try assumption.
  - simpl. apply Forall_app. split; [exact T |].
    constructor; [| constructor]. simpl. apply trim_idempotent.
  - unfold update_quantity in E.
    destruct (update_rows plus_one param (products d)) as [ps |] eqn:U;
      [| discriminate].
    injection E as <-. simpl. apply Forall_forall. intros p' I.
    destruct (update_rows_origin _ _ _ _ U p' I) as [p [Ip [_ En]]].
    rewrite <- En. rewrite Forall_forall in T. auto.
  - unfold update_quantity in E.
    destruct (update_rows minus_one_floor param (products d)) as [ps |] eqn:U;
      [| discriminate].
    injection E as <-. simpl. apply Forall_forall. intros p' I.
    destruct (update_rows_origin _ _ _ _ U p' I) as [p [Ip [_ En]]].
    rewrite <- En. rewrite Forall_forall in T. auto.
  - simpl. apply Forall_forall. intros p Hp. apply filter_In in Hp as [Hp _].
    rewrite Forall_forall in T. auto.
Qed.

(** X19. Product names are stored trimmed: when no stored name starts or
    ends with white space, none does after any sequence of requests. *)
Theorem names_stay_trimmed (tok : option string)
    (bh : string -> N -> string) (bc : string -> string -> bool)
    (rs : list request) (w : world) :
  names_trimmed (db w) -> names_trimmed (db (serve tok bh bc rs w)).
Proof.
  apply (serve_db_invariant names_trimmed tok bh bc).
  intros d d' S H. eapply db_step_names; eauto.
Qed.

(** The seeded names, and a name sent with spaces around it. *)
Lemma names_stay_trimmed_witness :
  names_trimmed (db Example.member)
  /\ names_trimmed
       (db (Example.replay [PostAdd [("name", Str "  Vinho Verde  ")];
                            PostDecr "4"] Example.member)).
Proof.
  assert (H : names_trimmed (db Example.member)) by (repeat constructor).
  split; [exact H |].
  apply (names_stay_trimmed Example.token Example.bcrypt_hash
           Example.bcrypt_compare). exact H.
Defined.

End Stock.

(* ===================================================================== *)
(** ** Whole numbers through [Number] and the INTEGER column *)
(* ===================================================================== *)

Module WholeNumbers.
Import JsString Double DoubleFacts JsNumber Sqlite Server ServerFacts Ledger.
Import Observe IdText.

Lemma whole_number_stored (v : N) :
  (v < 2 ^ 53)%N ->
  bind_number (of_decimal false v 0)
    = Some (SqlReal (of_decimal false v 0))
  /\ integer_affinity (SqlReal (of_decimal false v 0)) = SqlInt (Z.of_N v).
Proof.
  intros H. destruct v as [| p]; [split; reflexivity |].
  assert (Hp : Z.pos p < 2 ^ 53).
  { change (Z.pos p) with (Z.of_N (N.pos p)).
    change (2 ^ 53) with (Z.of_N (2 ^ 53)). lia. }
  assert (O : of_decimal false (N.pos p) 0
              = binary_round prec emax false p 0).
  { unfold of_decimal. change (0 <=? 0) with true. cbv iota.
    change (Z.to_pos (10 ^ 0)) with 1%positive. rewrite Pos.mul_1_r.
    reflexivity. }
  rewrite O.
  pose proof (binary_round_exact false p Hp) as E.
  split.
  - unfold bind_number, real_result.
    destruct (binary_round prec emax false p 0); try reflexivity.
    discriminate E.
  - unfold integer_affinity. rewrite E.
    replace ((min_int64 <? Z.pos p) && (Z.pos p <? max_int64)) with true;
      [reflexivity |].
    symmetry. apply andb_true_iff.
    unfold min_int64, max_int64. split; [apply Z.ltb_lt | apply Z.ltb_lt]; lia.
Qed.

(** *** Reading a string of digits *)

Lemma digit_not_white_space (c : ascii) :
  is_digit c = true -> is_white_space c = false.
Proof. by_code_unit c. Qed.

Lemma digit_not_infinity (c : ascii) (r : string) :
  is_digit c = true -> (String c r =? "Infinity")%string = false.
Proof. by_code_unit c. Qed.

Lemma digit_no_radix (c p : ascii) (r : string) :
  is_digit p = true -> non_decimal (String c (String p r)) = None.
Proof.
  intros H.
  destruct c as [[] [] [] [] [] [] [] []]; try reflexivity.
  revert H. by_code_unit p.
Qed.

Lemma single_no_radix (c : ascii) : non_decimal (String c "") = None.
Proof. destruct c as [[] [] [] [] [] [] [] []]; reflexivity. Qed.

Lemma strip_end_digits (s : string) :
  all_digits s = true -> strip_end is_white_space s = s.
Proof.
  induction s as [| c r IH]; simpl; [reflexivity |].
  intros H. apply andb_true_iff in H as [Hc Hr].
  rewrite (IH Hr), (digit_not_white_space c Hc).
  destruct r; reflexivity.
Qed.

Lemma trim_digits (s : string) : all_digits s = true -> trim s = s.
Proof.
  intros H. unfold trim, strip.
  replace (strip_start is_white_space s) with s;
    [apply strip_end_digits; exact H |].
  destruct s as [| c r]; [reflexivity |].
  simpl in *. apply andb_true_iff in H as [Hc _].
  rewrite (digit_not_white_space c Hc). reflexivity.
Qed.

(** [Number] of a string of digits is the double nearest to the number
    the digits write. *)
Lemma Number_digits (s : string) :
  s <> EmptyString -> all_digits s = true ->
  Number s = of_decimal false (digits_value s 0) 0.
Proof.
  intros N H. unfold Number. rewrite (trim_digits s H).
  destruct s as [| c r]; [contradiction |].
  pose proof H as H'. simpl in H'. apply andb_true_iff in H' as [Hc Hr].
  assert (R : non_decimal (String c r) = None).
  { destruct r as [| p r']; [apply single_no_radix |].
    apply digit_no_radix. simpl in Hr.
    apply andb_true_iff in Hr as [Hp _]. exact Hp. }
  rewrite R, (digit_no_sign c r Hc), (digit_not_infinity c r Hc).
  unfold unsigned_decimal. rewrite (span_digits_all _ 0%N 0 H).
  cbn [exponent_part String.length].
  replace (0 + Z.of_nat (S (String.length r)) + 0 =? 0) with false
    by (symmetry; apply Z.eqb_neq; lia).
  reflexivity.
Qed.

(** X20. A quantity written as a whole number is stored as that number: for
    a logged-in browser and an add with a name, when the quantity field is
    a non-empty string of decimal digits that writes a number below 2^53,
    the product is stored with exactly that INTEGER quantity and the answer
    is the redirect to the inventory. *)
Theorem add_stores_whole_number (tok : option string)
    (bh : string -> N -> string) (bc : string -> string -> bool)
    (b : body) (w : world) (name s : string) :
  authenticated w = true ->
  field b "name" = Some (Str name) ->
  field b "quantity" = Some (Str s) ->
  s <> EmptyString ->
  all_digits s = true ->
  (digits_value s 0 < 2 ^ 53)%N ->
  fst (handle tok bh bc (PostAdd b) w) = Redirect "/inventory"
  /\ db (snd (handle tok bh bc (PostAdd b) w))
     = appended (trim name) (SqlInt (Z.of_N (digits_value s 0))) (db w).
Proof.
  intros A Hn Hq N D B. unfold authenticated in A.
  rewrite handle_add, Hn, Hq. cbn [string_field as_string].
  destruct (s_user (sess w)); [| discriminate].
  cbv zeta. unfold quantity_number.
  replace (truthy s) with true by (destruct s; [contradiction | reflexivity]).
  rewrite (Number_digits s N D).
  destruct (whole_number_stored _ B) as [E1 E2].
  rewrite E1. unfold insert_product. cbn [fst snd db with_db called].
  split; [reflexivity |].
  unfold appended. rewrite E2. reflexivity.
Qed.

(** Forty-two bottles, written with a leading zero. *)
Lemma add_stores_whole_number_witness :
  let b := [("name", Str "Merlot"); ("quantity", Str "042")] in
  fst (Example.answer (PostAdd b) Example.member) = Redirect "/inventory"
  /\ db (snd (Example.answer (PostAdd b) Example.member))
     = appended "Merlot" (SqlInt 42) (db Example.member).
Proof.
  apply (add_stores_whole_number Example.token Example.bcrypt_hash
           Example.bcrypt_compare
           [("name", Str "Merlot"); ("quantity", Str "042")] Example.member
           "Merlot" "042"); try reflexivity.
  discriminate.
Defined.

End WholeNumbers.

(* ===================================================================== *)
(** ** Where a negative quantity can come from *)
(* ===================================================================== *)

Module Entry.
Import Sqlite SqliteFacts Server ServerFacts Ledger Access Observe Routes.
Import Users.

Lemma no_negative_step (tok : option string) (bh : string -> N -> string)
    (bc : string -> string -> bool) (r : request) (w : world) :
  brings_no_negative r ->
  no_negative (db w) ->
  no_negative (db (snd (handle tok bh bc r w))).
Proof.
  intros B H. destruct r.
  - rewrite handle_root. exact H.
  - exact H.
  - rewrite handle_register.
    destruct (string_field (field b "password")); [| exact H].
    destruct (string_field (field b "email")); [| exact H].
    cbv zeta. destruct (select_user _ (db w)); exact H.
  - exact H.
  - rewrite handle_login.
    destruct (token_rejected tok b); [exact H |].
    destruct (as_string (or_empty_field (field b "email")));
      [| exact H].
    cbv zeta. destruct (select_user _ (db w)) as [u |]; [| exact H].
    destruct (as_string (or_empty_field (field b "password")));
      [| exact H].
    cbv zeta. destruct (bc _ (user_password_hash u)); exact H.
  - exact H.
  - rewrite handle_get_inventory.
    destruct (s_user (sess w)); exact H.
  - rewrite handle_add.
    destruct (s_user (sess w)); [| exact H].
    destruct (string_field (field b "name")); [| exact H].
    cbv zeta. unfold insert_product.
    destruct (bind_number _) as [q |] eqn:E; [| exact H].
    simpl in B. specialize (B q E).
    unfold no_negative, appended. simpl.
    apply Forall_app. split; [exact H |].
    constructor; [exact B | constructor].
  - apply incr_not_negative. exact H.
  - apply decr_not_negative. exact H.
  - rewrite handle_delete.
    destruct (s_user (sess w)); [| exact H].
    unfold no_negative, delete_product. simpl.
    apply Forall_forall. intros p Hp. apply filter_In in Hp as [Hp _].
    unfold no_negative in H. rewrite Forall_forall in H. auto.
Qed.

(** X21. A negative quantity can only come in through an add: started on
    a table without negative quantities, any sequence of requests in which
    no add carries a negative quantity leaves the table without negative
    quantities, whatever else the requests do. *)
Theorem negative_only_through_add (tok : option string)
    (bh : string -> N -> string) (bc : string -> string -> bool)
    (rs : list request) (w : world) :
  Forall brings_no_negative rs ->
  no_negative (db w) ->
  no_negative (db (serve tok bh bc rs w)).
Proof.
  intros B. revert w. induction B as [| r rest Hr _ IH]; intros w H; simpl.
  - exact H.
  - apply IH. apply no_negative_step; assumption.
Qed.

(** Adds at 3 and at 0.5, decrements, a delete. *)
Lemma negative_only_through_add_witness :
  let rs := [PostAdd [("name", Str "Merlot"); ("quantity", Str "3")];
             PostAdd [("name", Str "Porto"); ("quantity", Str "0.5")];
             PostDecr "5"; PostDecr "5"; PostDelete "2"; PostIncr "4"] in
  Forall brings_no_negative rs
  /\ no_negative (db Example.member)
  /\ no_negative (db (Example.replay rs Example.member)).
Proof.
  assert (B : Forall brings_no_negative
                [PostAdd [("name", Str "Merlot"); ("quantity", Str "3")];
                 PostAdd [("name", Str "Porto"); ("quantity", Str "0.5")];
                 PostDecr "5"; PostDecr "5"; PostDelete "2"; PostIncr "4"]).
  { repeat constructor; intros q E; injection E as <-; reflexivity. }
  assert (H : no_negative (db Example.member)) by (repeat constructor).
  split; [exact B | split; [exact H |]].
  apply (negative_only_through_add Example.token Example.bcrypt_hash
           Example.bcrypt_compare); assumption.
Defined.

End Entry.
